(** * Tendis TTL index manager: a shallow embedding of
    [src/tendisplus/server/index_manager.cpp] and the properties of its
    scanner job, deleter job, shard stop hook, dispatch loop and startup.

    The per-shard tables of [IndexManager] ([_scanPoints], [_expiredKeys],
    the busy flags, ...) are C++ maps indexed with [operator[]]; they are
    modelled as [gmap nat _] read with an explicit default.  Unsigned
    counters are [Z] with their wrap-around written out.  Jobs are
    modelled as state-passing functions over the manager state; what they
    ask of the surrounding server is collected in [ServerEntry]. *)

From Stdlib Require Import ZArith List String Lia.
From stdpp Require Import base option list sorting gmap strings.

Local Open Scope Z_scope.

(** ** Status values and [Expected] results *)

(** The codes the two source files name, and the code a cursor reports
    at the end of the index; the enumeration itself is declared outside
    the two source files. *)
Inductive ErrorCodes :=
  | ERR_OK
  | ERR_INTERNAL
  | ERR_NOTFOUND
  | ERR_BUSY
  | ERR_EXHAUST.

Global Instance ErrorCodes_eq_dec : EqDecision ErrorCodes.
Proof. solve_decision. Defined.

Record Status := mkStatus { code : ErrorCodes; msg : string }.

Global Instance Status_eq_dec : EqDecision Status.
Proof. solve_decision. Defined.

Definition ok (s : Status) : bool := bool_decide (code s = ERR_OK).

(** The value every success path returns: [{ErrorCodes::ERR_OK, ""}]. *)
Definition OK : Status := mkStatus ERR_OK "".

Inductive Expected (A : Type) :=
  | Value (a : A)
  | Failure (s : Status).
Arguments Value {A} a.
Arguments Failure {A} s.

(** ** TTL index entries and the storage collaborators *)

(** Modelled from the spec: the [TTLIndex] record class is declared
    outside the two source files; the job uses its accessors
    [getPriKey], [getDbId], [getType] and [encode], and the cursor
    compares its expiration timestamp [getTTL] with the scan time. *)
Record TTLIndex := mkTTLIndex {
  getTTL : Z;
  getPriKey : string;
  getType : nat;
  getDbId : Z;
  encode : string
}.

Global Instance TTLIndex_eq_dec : EqDecision TTLIndex.
Proof. solve_decision. Defined.

Inductive StoreMode := READ_WRITE | REPLICATE_ONLY | STORE_NONE.

Global Instance StoreMode_eq_dec : EqDecision StoreMode.
Proof. solve_decision. Defined.

(** Modelled from the spec: a read transaction is a snapshot of the
    shard's ordered TTL index; [readFault] is the status a cursor read
    reports once no further entry can be read (end of index, or a read
    error). *)
Record Transaction := mkTransaction {
  ttlIndex : list TTLIndex;
  readFault : Status
}.

(** Modelled from the spec: the storage handle of one shard
    ([mode], [is_open], [current_time], [begin_read_tx]). *)
Record KVStore := mkKVStore {
  getMode : StoreMode;
  isOpen : bool;
  getCurrentTime : Z;
  createTransaction : Expected Transaction
}.

(** Modelled from the spec: the TTL-index cursor.  It yields, in index
    order, the entries whose expiration timestamp is at most [until]. *)
Record TTLIndexCursor := mkCursor {
  pending : list TTLIndex;
  cursorFault : Status
}.

Definition createTTLIndexCursor (txn : Transaction) (until : Z) : TTLIndexCursor :=
  mkCursor (List.filter (fun e => getTTL e <=? until) (ttlIndex txn)) (readFault txn).

(** [seek(target)]: position on the first entry whose key is not below
    [target] in the byte order. *)
Fixpoint seekFrom (target : string) (l : list TTLIndex) : list TTLIndex :=
  match l with
  | [] => []
  | e :: rest => if String.ltb (encode e) target then seekFrom target rest else l
  end.

Definition cursor_seek (target : string) (c : TTLIndexCursor) : TTLIndexCursor :=
  mkCursor (seekFrom target (pending c)) (cursorFault c).

(** [key()]: the key under the cursor, without moving. *)
Definition cursor_key (c : TTLIndexCursor) : Expected string :=
  match pending c with
  | [] => Failure (cursorFault c)
  | e :: _ => Value (encode e)
  end.

(** [next()]: the entry under the cursor, and the cursor moved past it. *)
Definition cursor_next (c : TTLIndexCursor) : Expected TTLIndex * TTLIndexCursor :=
  match pending c with
  | [] => (Failure (cursorFault c), c)
  | e :: rest => (Value e, mkCursor rest (cursorFault c))
  end.

(** What the jobs ask of the surrounding server ([_svr]): the cluster
    switch, the migrate manager's answer, the segment manager's shard
    lookup and the shard count. *)
Record ServerEntry := mkServerEntry {
  clusterEnabled : bool;
  existMigrateTask : bool;
  getDb : nat -> Expected KVStore;
  getKVStoreCount : nat
}.

(** ** Worker pools *)

Inductive Job :=
  | ScanJob (storeId : nat)
  | DelJob (storeId : nat).

Global Instance Job_eq_dec : EqDecision Job.
Proof. solve_decision. Defined.

Record WorkerPool := mkWorkerPool {
  poolName : string;
  poolThreads : Z;
  poolQueue : list Job
}.

Definition schedule (j : Job) (p : option WorkerPool) : option WorkerPool :=
  match p with
  | Some w => Some (mkWorkerPool (poolName w) (poolThreads w) (poolQueue w ++ [j]))
  | None => None
  end.

(** ** The manager state *)

(** The counters are unsigned and wrap.  Their declarations are in
    [index_manager.h], outside the two source files: the per-shard
    in-flight counters are taken as 32-bit (the constructor initialises
    them with the [unsigned] literal [0u], and the deleter counts its
    pops in a [uint32_t]), the two totals as 64-bit. *)
Definition wrap32 (z : Z) : Z := z mod 2 ^ 32.
Definition wrap64 (z : Z) : Z := z mod 2 ^ 64.

Record IndexManager := mkIndexManager {
  _isRunning : bool;
  _runner : bool;
  _indexScanner : option WorkerPool;
  _keyDeleter : option WorkerPool;
  _scanPoints : gmap nat string;
  _scanJobStatus : gmap nat bool;
  _delJobStatus : gmap nat bool;
  _disableStatus : gmap nat bool;
  _scanJobCnt : gmap nat Z;
  _delJobCnt : gmap nat Z;
  _expiredKeys : gmap nat (list TTLIndex);
  _totalDequeue : Z;
  _totalEnqueue : Z;
  _scanBatch : Z;
  _scanPoolSize : Z;
  _delBatch : Z;
  _delPoolSize : Z;
  _pauseTime : Z
}.

(** Reads through [operator[]]: a missing key reads as the
    value-initialised element. *)
Definition flagAt (t : gmap nat bool) (i : nat) : bool := default false (t !! i).
Definition cntAt (t : gmap nat Z) (i : nat) : Z := default 0 (t !! i).
Definition pointAt (t : gmap nat string) (i : nat) : string := default EmptyString (t !! i).
Definition queueAt (t : gmap nat (list TTLIndex)) (i : nat) : list TTLIndex :=
  default [] (t !! i).

Definition set_isRunning (v : bool) (m : IndexManager) : IndexManager :=
  mkIndexManager v (_runner m) (_indexScanner m) (_keyDeleter m) (_scanPoints m)
    (_scanJobStatus m) (_delJobStatus m) (_disableStatus m) (_scanJobCnt m)
    (_delJobCnt m) (_expiredKeys m) (_totalDequeue m) (_totalEnqueue m)
    (_scanBatch m) (_scanPoolSize m) (_delBatch m) (_delPoolSize m) (_pauseTime m).

Definition set_runner (v : bool) (m : IndexManager) : IndexManager :=
  mkIndexManager (_isRunning m) v (_indexScanner m) (_keyDeleter m) (_scanPoints m)
    (_scanJobStatus m) (_delJobStatus m) (_disableStatus m) (_scanJobCnt m)
    (_delJobCnt m) (_expiredKeys m) (_totalDequeue m) (_totalEnqueue m)
    (_scanBatch m) (_scanPoolSize m) (_delBatch m) (_delPoolSize m) (_pauseTime m).

Definition set_indexScanner (v : option WorkerPool) (m : IndexManager) : IndexManager :=
  mkIndexManager (_isRunning m) (_runner m) v (_keyDeleter m) (_scanPoints m)
    (_scanJobStatus m) (_delJobStatus m) (_disableStatus m) (_scanJobCnt m)
    (_delJobCnt m) (_expiredKeys m) (_totalDequeue m) (_totalEnqueue m)
    (_scanBatch m) (_scanPoolSize m) (_delBatch m) (_delPoolSize m) (_pauseTime m).

Definition set_keyDeleter (v : option WorkerPool) (m : IndexManager) : IndexManager :=
  mkIndexManager (_isRunning m) (_runner m) (_indexScanner m) v (_scanPoints m)
    (_scanJobStatus m) (_delJobStatus m) (_disableStatus m) (_scanJobCnt m)
    (_delJobCnt m) (_expiredKeys m) (_totalDequeue m) (_totalEnqueue m)
    (_scanBatch m) (_scanPoolSize m) (_delBatch m) (_delPoolSize m) (_pauseTime m).

Definition set_scanPoints (v : gmap nat string) (m : IndexManager) : IndexManager :=
  mkIndexManager (_isRunning m) (_runner m) (_indexScanner m) (_keyDeleter m) v
    (_scanJobStatus m) (_delJobStatus m) (_disableStatus m) (_scanJobCnt m)
    (_delJobCnt m) (_expiredKeys m) (_totalDequeue m) (_totalEnqueue m)
    (_scanBatch m) (_scanPoolSize m) (_delBatch m) (_delPoolSize m) (_pauseTime m).

Definition set_scanJobStatus (v : gmap nat bool) (m : IndexManager) : IndexManager :=
  mkIndexManager (_isRunning m) (_runner m) (_indexScanner m) (_keyDeleter m)
    (_scanPoints m) v (_delJobStatus m) (_disableStatus m) (_scanJobCnt m)
    (_delJobCnt m) (_expiredKeys m) (_totalDequeue m) (_totalEnqueue m)
    (_scanBatch m) (_scanPoolSize m) (_delBatch m) (_delPoolSize m) (_pauseTime m).

Definition set_delJobStatus (v : gmap nat bool) (m : IndexManager) : IndexManager :=
  mkIndexManager (_isRunning m) (_runner m) (_indexScanner m) (_keyDeleter m)
    (_scanPoints m) (_scanJobStatus m) v (_disableStatus m) (_scanJobCnt m)
    (_delJobCnt m) (_expiredKeys m) (_totalDequeue m) (_totalEnqueue m)
    (_scanBatch m) (_scanPoolSize m) (_delBatch m) (_delPoolSize m) (_pauseTime m).

Definition set_disableStatus (v : gmap nat bool) (m : IndexManager) : IndexManager :=
  mkIndexManager (_isRunning m) (_runner m) (_indexScanner m) (_keyDeleter m)
    (_scanPoints m) (_scanJobStatus m) (_delJobStatus m) v (_scanJobCnt m)
    (_delJobCnt m) (_expiredKeys m) (_totalDequeue m) (_totalEnqueue m)
    (_scanBatch m) (_scanPoolSize m) (_delBatch m) (_delPoolSize m) (_pauseTime m).

Definition set_scanJobCnt (v : gmap nat Z) (m : IndexManager) : IndexManager :=
  mkIndexManager (_isRunning m) (_runner m) (_indexScanner m) (_keyDeleter m)
    (_scanPoints m) (_scanJobStatus m) (_delJobStatus m) (_disableStatus m) v
    (_delJobCnt m) (_expiredKeys m) (_totalDequeue m) (_totalEnqueue m)
    (_scanBatch m) (_scanPoolSize m) (_delBatch m) (_delPoolSize m) (_pauseTime m).

Definition set_delJobCnt (v : gmap nat Z) (m : IndexManager) : IndexManager :=
  mkIndexManager (_isRunning m) (_runner m) (_indexScanner m) (_keyDeleter m)
    (_scanPoints m) (_scanJobStatus m) (_delJobStatus m) (_disableStatus m)
    (_scanJobCnt m) v (_expiredKeys m) (_totalDequeue m) (_totalEnqueue m)
    (_scanBatch m) (_scanPoolSize m) (_delBatch m) (_delPoolSize m) (_pauseTime m).

Definition set_expiredKeys (v : gmap nat (list TTLIndex)) (m : IndexManager) : IndexManager :=
  mkIndexManager (_isRunning m) (_runner m) (_indexScanner m) (_keyDeleter m)
    (_scanPoints m) (_scanJobStatus m) (_delJobStatus m) (_disableStatus m)
    (_scanJobCnt m) (_delJobCnt m) v (_totalDequeue m) (_totalEnqueue m)
    (_scanBatch m) (_scanPoolSize m) (_delBatch m) (_delPoolSize m) (_pauseTime m).

Definition set_totalDequeue (v : Z) (m : IndexManager) : IndexManager :=
  mkIndexManager (_isRunning m) (_runner m) (_indexScanner m) (_keyDeleter m)
    (_scanPoints m) (_scanJobStatus m) (_delJobStatus m) (_disableStatus m)
    (_scanJobCnt m) (_delJobCnt m) (_expiredKeys m) v (_totalEnqueue m)
    (_scanBatch m) (_scanPoolSize m) (_delBatch m) (_delPoolSize m) (_pauseTime m).

Definition set_totalEnqueue (v : Z) (m : IndexManager) : IndexManager :=
  mkIndexManager (_isRunning m) (_runner m) (_indexScanner m) (_keyDeleter m)
    (_scanPoints m) (_scanJobStatus m) (_delJobStatus m) (_disableStatus m)
    (_scanJobCnt m) (_delJobCnt m) (_expiredKeys m) (_totalDequeue m) v
    (_scanBatch m) (_scanPoolSize m) (_delBatch m) (_delPoolSize m) (_pauseTime m).

(** ** Construction *)

(** The configuration values the constructor copies. *)
Record ServerParams := mkServerParams {
  scanCntIndexMgr : Z;
  scanJobCntIndexMgr : Z;
  delCntIndexMgr : Z;
  delJobCntIndexMgr : Z;
  pauseTimeIndexMgr : Z
}.

(** One round of the constructor's loop body. *)
Definition initStore (m : IndexManager) (storeId : nat) : IndexManager :=
  let m := set_scanPoints (<[storeId := EmptyString]> (_scanPoints m)) m in
  let m := set_scanJobStatus (<[storeId := false]> (_scanJobStatus m)) m in
  let m := set_delJobStatus (<[storeId := false]> (_delJobStatus m)) m in
  let m := set_disableStatus (<[storeId := false]> (_disableStatus m)) m in
  let m := set_scanJobCnt (<[storeId := 0]> (_scanJobCnt m)) m in
  set_delJobCnt (<[storeId := 0]> (_delJobCnt m)) m.

Definition newIndexManager (svr : ServerEntry) (cfg : ServerParams) : IndexManager :=
  foldl initStore
    (mkIndexManager false false None None ∅ ∅ ∅ ∅ ∅ ∅ ∅ 0 0
       (scanCntIndexMgr cfg) (scanJobCntIndexMgr cfg)
       (delCntIndexMgr cfg) (delJobCntIndexMgr cfg) (pauseTimeIndexMgr cfg))
    (seq 0 (getKVStoreCount svr)).

(** ** [IndexManager::scanExpiredKeysJob] *)

(** The scope guard's action, run when the job leaves the guarded scope. *)
Definition scanGuard (storeId : nat) (m : IndexManager) : IndexManager :=
  let m := set_scanJobCnt
             (<[storeId := wrap32 (cntAt (_scanJobCnt m) storeId - 1)]> (_scanJobCnt m)) m in
  set_scanJobStatus (<[storeId := false]> (_scanJobStatus m)) m.

(** What one round of the scan body does under the lock, before the
    batch test. *)
Definition enqueue (record : TTLIndex) (storeId : nat) (m : IndexManager) : IndexManager :=
  let m := set_scanPoints (<[storeId := encode record]> (_scanPoints m)) m in
  let m := set_expiredKeys
             (<[storeId := queueAt (_expiredKeys m) storeId ++ [record]]>
                (_expiredKeys m)) m in
  set_totalEnqueue (wrap64 (_totalEnqueue m + 1)) m.

(** The scan body: the [while (true)] loop over [cursor->next()].
    [records] is what the cursor yields from its position on, the read
    that fails at their end being the empty case; the loop leaves on that
    failure or when the queue's size equals [_scanBatch]. *)
Fixpoint scanLoop (records : list TTLIndex) (storeId : nat) (m : IndexManager)
  : IndexManager :=
  match records with
  | [] => m
  | record :: rest =>
      let m := enqueue record storeId m in
      if Z.of_nat (length (queueAt (_expiredKeys m) storeId)) =? _scanBatch m
      then m
      else scanLoop rest storeId m
  end.

(** Cursor positioning: [None] is the early return taken when [key()]
    fails after the seek. *)
Definition positionCursor (prefix : string) (cursor : TTLIndexCursor)
  : option TTLIndexCursor :=
  if (0 <? String.length prefix)%nat then
    let cursor := cursor_seek prefix cursor in
    match cursor_key cursor with
    | Failure _ => None
    | Value key =>
        if bool_decide (prefix = key)
        then Some (snd (cursor_next cursor))
        else Some cursor
    end
  else Some cursor.

(** The part of the job that runs under the scope guard. *)
Definition scanGuarded (svr : ServerEntry) (storeId : nat) (m : IndexManager)
  : Status * IndexManager :=
  if clusterEnabled svr && existMigrateTask svr then (OK, m)
  else
    let m := set_scanJobCnt
               (<[storeId := wrap32 (cntAt (_scanJobCnt m) storeId + 1)]> (_scanJobCnt m)) m in
    match getDb svr storeId with
    | Failure s => (s, m)
    | Value store =>
        if bool_decide (getMode store = REPLICATE_ONLY) || negb (isOpen store)
        then (OK, m)
        else
          match createTransaction store with
          | Failure s => (s, m)
          | Value txn =>
              let cursor := createTTLIndexCursor txn (getCurrentTime store) in
              let prefix := pointAt (_scanPoints m) storeId in
              match positionCursor prefix cursor with
              | None => (OK, m)
              | Some cursor => (OK, scanLoop (pending cursor) storeId m)
              end
          end
    end.

Definition scanExpiredKeysJob (svr : ServerEntry) (storeId : nat) (m : IndexManager)
  : Status * IndexManager :=
  if flagAt (_scanJobStatus m) storeId then (OK, m)
  else
    let m := set_scanJobStatus (<[storeId := true]> (_scanJobStatus m)) m in
    if flagAt (_disableStatus m) storeId then (OK, m)
    else
      let '(s, m) := scanGuarded svr storeId m in
      (s, scanGuard storeId m).

(** ** [IndexManager::stopStore] *)

Definition stopStore (storeId : nat) (m : IndexManager) : Status * IndexManager :=
  let m := set_expiredKeys (<[storeId := []]> (_expiredKeys m)) m in
  let m := set_scanPoints (<[storeId := EmptyString]> (_scanPoints m)) m in
  let m := set_scanJobCnt (<[storeId := 0]> (_scanJobCnt m)) m in
  let m := set_delJobCnt (<[storeId := 0]> (_delJobCnt m)) m in
  let m := set_disableStatus (<[storeId := true]> (_disableStatus m)) m in
  (OK, m).

(** ** [IndexManager::tryDelExpiredKeysJob] *)

(** One call of [Command::expireKeyIfNeeded]: the db id set on the local
    session, the primary key and the record type. *)
Record ExpireCall := mkExpireCall {
  callDbId : Z;
  callPriKey : string;
  callType : nat
}.

Global Instance ExpireCall_eq_dec : EqDecision ExpireCall.
Proof. solve_decision. Defined.

(** The call the deleter makes for a queue entry: the session's db id is
    set to [index.getDbId()], then
    [expireKeyIfNeeded(session, index.getPriKey(), index.getType())]. *)
Definition callOf (index : TTLIndex) : ExpireCall :=
  mkExpireCall (getDbId index) (getPriKey index) (getType index).

(** The value of the [uint32_t] counter [deletes] returned as [int]. *)
Definition toInt (z : Z) : Z := if z <? 2 ^ 31 then z else z - 2 ^ 32.

(** The deleter's [while (true)] loop.  [queue] is [_expiredKeys[storeId]]
    as the loop finds it: empty breaks, otherwise the front entry is
    passed to [expireKeyIfNeeded] and then popped. *)
Fixpoint delLoop (queue : list TTLIndex) (storeId : nat) (deletes : Z) (m : IndexManager)
  : Z * IndexManager * list ExpireCall :=
  match queue with
  | [] => (deletes, m, [])
  | index :: rest =>
      let call := callOf index in
      let m := set_expiredKeys (<[storeId := rest]> (_expiredKeys m)) m in
      let m := set_totalDequeue (wrap64 (_totalDequeue m + 1)) m in
      let deletes := wrap32 (deletes + 1) in
      if deletes =? _delBatch m then (deletes, m, [call])
      else
        let '(deletes, m, calls) := delLoop rest storeId deletes m in
        (deletes, m, call :: calls)
  end.

Definition tryDelExpiredKeysJob (storeId : nat) (m : IndexManager)
  : Z * IndexManager * list ExpireCall :=
  if flagAt (_delJobStatus m) storeId then (0, m, [])
  else
    let m := set_delJobStatus (<[storeId := true]> (_delJobStatus m)) m in
    if flagAt (_disableStatus m) storeId then (0, m, [])
    else
      let m := set_delJobCnt
                 (<[storeId := wrap32 (cntAt (_delJobCnt m) storeId + 1)]> (_delJobCnt m)) m in
      let '(deletes, m, calls) := delLoop (queueAt (_expiredKeys m) storeId) storeId 0 m in
      let m := set_delJobCnt
                 (<[storeId := wrap32 (cntAt (_delJobCnt m) storeId - 1)]> (_delJobCnt m)) m in
      let m := set_delJobStatus (<[storeId := false]> (_delJobStatus m)) m in
      (toInt deletes, m, calls).

(** ** [IndexManager::run]: the dispatch loop *)

(** What one pass of the loop does to its surroundings, in order. *)
Inductive Effect :=
  | Lock
  | Unlock
  | Inspect (storeId : nat)
  | Schedule (pool : string) (j : Job)
  | Sleep (seconds : Z).

Global Instance Effect_eq_dec : EqDecision Effect.
Proof. solve_decision. Defined.

Definition scannerName : string := "tx-idx-scan".
Definition deleterName : string := "tx-idx-del".

Definition scheScanExpired (svr : ServerEntry) (m : IndexManager)
  : IndexManager * list Effect :=
  foldl (fun '(m, tr) i =>
           (set_indexScanner (schedule (ScanJob i) (_indexScanner m)) m,
            tr ++ [Schedule scannerName (ScanJob i)]))
        (m, []) (seq 0 (getKVStoreCount svr)).

Definition schedDelExpired (svr : ServerEntry) (m : IndexManager)
  : bool * IndexManager * list Effect :=
  let '(stored_with_expires, tr) :=
    foldl (fun '(acc, tr) i =>
             (if (0 <? length (queueAt (_expiredKeys m) i))%nat then acc ++ [i] else acc,
              tr ++ [Inspect i]))
          ([], [Lock]) (seq 0 (getKVStoreCount svr)) in
  let tr := tr ++ [Unlock] in
  let '(m, tr) :=
    foldl (fun '(m, tr) store_idx =>
             (set_keyDeleter (schedule (DelJob store_idx) (_keyDeleter m)) m,
              tr ++ [Schedule deleterName (DelJob store_idx)]))
          (m, tr) stored_with_expires in
  ((0 <? length stored_with_expires)%nat, m, tr).

(** The loop body. *)
Definition runIteration (svr : ServerEntry) (m : IndexManager)
  : IndexManager * list Effect :=
  let '(m, t1) := scheScanExpired svr m in
  let '(_, m, t2) := schedDelExpired svr m in
  (m, t1 ++ t2 ++ [Sleep (_pauseTime m)]).

(** One evaluation of the loop condition: [None] when the loop exits. *)
Definition runStep (svr : ServerEntry) (m : IndexManager)
  : option (IndexManager * list Effect) :=
  if _isRunning m then Some (runIteration svr m) else None.

(** The loop, for as long as no other thread interferes: it leaves only
    when [_isRunning] reads false. *)
Fixpoint run (rounds : nat) (svr : ServerEntry) (m : IndexManager)
  : IndexManager * list Effect :=
  match rounds with
  | O => (m, [])
  | S rounds =>
      match runStep svr m with
      | None => (m, [])
      | Some (m, t) => let '(m, t') := run rounds svr m in (m, t ++ t')
      end
  end.

(** ** [IndexManager::startup], [stop], [isRunning] *)

(** [WorkerPool::startup] is outside the sources: its outcome for a pool
    name and a thread count is a parameter of [startup].  A pool is
    created without threads and has [n] of them once [startup(n)]
    succeeded. *)
Definition startPool (poolStartup : string -> Z -> Status) (name : string) (n : Z)
  : Status * WorkerPool :=
  let s := poolStartup name n in
  (s, mkWorkerPool name (if ok s then n else 0) []).

Definition startup (poolStartup : string -> Z -> Status) (m : IndexManager)
  : Status * IndexManager :=
  let '(s, pool) := startPool poolStartup scannerName (_scanPoolSize m) in
  let m := set_indexScanner (Some pool) m in
  if negb (ok s) then (s, m)
  else
    let '(s, pool) := startPool poolStartup deleterName (_delPoolSize m) in
    let m := set_keyDeleter (Some pool) m in
    if negb (ok s) then (s, m)
    else
      let m := set_isRunning true m in
      let m := set_runner true m in
      (OK, m).

(** [WorkerPool::stop]: the workers are joined. *)
Definition stopPool (p : option WorkerPool) : option WorkerPool :=
  match p with
  | Some w => Some (mkWorkerPool (poolName w) 0 (poolQueue w))
  | None => None
  end.

Definition stop (m : IndexManager) : IndexManager :=
  let m := set_isRunning false m in
  let m := set_runner false m in
  let m := set_indexScanner (stopPool (_indexScanner m)) m in
  set_keyDeleter (stopPool (_keyDeleter m)) m.

Definition isRunning (m : IndexManager) : bool := _isRunning m.

(** ** [ServerEntry::setStoreMode] *)

(** The store after [setStoreMode(store, mode)]: untouched when it is in
    that mode already, otherwise [store->setMode(mode)].  The catalog
    record the function also updates is not part of the model. *)
Definition setMode (mode : StoreMode) (store : KVStore) : KVStore :=
  mkKVStore mode (isOpen store) (getCurrentTime store) (createTransaction store).

Definition setStoreMode (store : KVStore) (mode : StoreMode) : KVStore :=
  if bool_decide (getMode store = mode) then store else setMode mode store.

(** ** Executions of the engine

    The engine's threads are interleaved at the granularity of whole
    operations: a dispatch-loop pass, a pool worker running the job at
    the head of its pool's queue, the server stopping a shard, the server
    changing a shard's mode, and [stop]. *)

Inductive Op :=
  | OpTick
  | OpScanWorker
  | OpDelWorker
  | OpStopStore (storeId : nat)
  | OpSetMode (storeId : nat) (mode : StoreMode)
  | OpStop.

Global Instance Op_eq_dec : EqDecision Op.
Proof. solve_decision. Defined.

(** A logged [expireKeyIfNeeded] call: the shard whose queue the entry
    came from, the call, and that shard's mode when the call was made
    ([None] when the shard does not resolve to a store). *)
Record Invocation := mkInvocation {
  invShard : nat;
  invCall : ExpireCall;
  invMode : option StoreMode
}.

Record World := mkWorld {
  wSvr : ServerEntry;
  wMgr : IndexManager;
  wLog : list Invocation
}.

Definition modeOf (svr : ServerEntry) (storeId : nat) : option StoreMode :=
  match getDb svr storeId with
  | Value store => Some (getMode store)
  | Failure _ => None
  end.

Definition changeMode (storeId : nat) (mode : StoreMode) (svr : ServerEntry) : ServerEntry :=
  mkServerEntry (clusterEnabled svr) (existMigrateTask svr)
    (fun i => if bool_decide (i = storeId)
              then match getDb svr i with
                   | Value store => Value (setStoreMode store mode)
                   | Failure s => Failure s
                   end
              else getDb svr i)
    (getKVStoreCount svr).

Definition runJob (j : Job) (w : World) : World :=
  match j with
  | ScanJob i =>
      mkWorld (wSvr w) (snd (scanExpiredKeysJob (wSvr w) i (wMgr w))) (wLog w)
  | DelJob i =>
      let '(_, m, calls) := tryDelExpiredKeysJob i (wMgr w) in
      mkWorld (wSvr w) m
        (wLog w ++ map (fun c => mkInvocation i c (modeOf (wSvr w) i)) calls)
  end.

(** A worker of a pool that has threads takes the job at the head of
    the pool's queue. *)
Definition takeJob (p : option WorkerPool) : option (Job * option WorkerPool) :=
  match p with
  | Some w =>
      if 0 <? poolThreads w then
        match poolQueue w with
        | j :: rest => Some (j, Some (mkWorkerPool (poolName w) (poolThreads w) rest))
        | [] => None
        end
      else None
  | None => None
  end.

Definition execOp (w : World) (op : Op) : World :=
  match op with
  | OpTick =>
      match runStep (wSvr w) (wMgr w) with
      | Some (m, _) => mkWorld (wSvr w) m (wLog w)
      | None => w
      end
  | OpScanWorker =>
      match takeJob (_indexScanner (wMgr w)) with
      | Some (j, p) => runJob j (mkWorld (wSvr w) (set_indexScanner p (wMgr w)) (wLog w))
      | None => w
      end
  | OpDelWorker =>
      match takeJob (_keyDeleter (wMgr w)) with
      | Some (j, p) => runJob j (mkWorld (wSvr w) (set_keyDeleter p (wMgr w)) (wLog w))
      | None => w
      end
  | OpStopStore i => mkWorld (wSvr w) (snd (stopStore i (wMgr w))) (wLog w)
  | OpSetMode i mode => mkWorld (changeMode i mode (wSvr w)) (wMgr w) (wLog w)
  | OpStop => mkWorld (wSvr w) (stop (wMgr w)) (wLog w)
  end.

Definition exec (ops : list Op) (w : World) : World := foldl execOp w ops.

(** ** Sample data used by the closed examples *)

Definition sampleEntry (k : string) : TTLIndex := mkTTLIndex 1 k 0 0 k.

Definition endOfIndex : Status := mkStatus ERR_EXHAUST "no more ttl index".

Definition sampleStore (mode : StoreMode) (index : list TTLIndex) : KVStore :=
  mkKVStore mode true 10 (Value (mkTransaction index endOfIndex)).

Definition noSuchStore : Status := mkStatus ERR_NOTFOUND "store not found".

(** A server with one shard, shard 0, resolving to [store]. *)
Definition sampleServer (cluster migrating : bool) (store : Expected KVStore)
  : ServerEntry :=
  mkServerEntry cluster migrating
    (fun i => if bool_decide (i = 0%nat) then store else Failure noSuchStore) 1.

Definition sampleIndex : list TTLIndex :=
  map sampleEntry ["a"; "b"; "c"; "d"; "e"]%string.

Definition sampleParams : ServerParams := mkServerParams 2 1 2 1 1.

(** The manager as constructed for one shard with
    [scanCntIndexMgr = 2] and [delCntIndexMgr = 2]. *)
Definition sampleManager : IndexManager :=
  newIndexManager (sampleServer false false (Failure noSuchStore)) sampleParams.

(** ** Vocabulary of the statements *)

(** The job gets as far as the shard lookup: its compare-and-swap
    succeeded, the shard is not disabled and no migrate task defers it. *)
Definition reachesLookup (svr : ServerEntry) (storeId : nat) (m : IndexManager) : bool :=
  negb (flagAt (_scanJobStatus m) storeId)
  && negb (flagAt (_disableStatus m) storeId)
  && negb (clusterEnabled svr && existMigrateTask svr).

(** The TTL index as the storage engine keeps it: entries in strictly
    increasing order of their encoded keys (an ordered store holds each
    key once), none of which is the empty string, the value that marks a
    resume cursor as unset. *)
Definition keyBelow (a b : TTLIndex) : Prop :=
  String.ltb (encode a) (encode b) = true.

Definition orderedIndex (index : list TTLIndex) : Prop :=
  StronglySorted keyBelow index
  /\ Forall (fun e => encode e <> EmptyString) index.

(** The shards whose expired queue is not empty, in increasing order. *)
Definition shardsWithExpires (svr : ServerEntry) (m : IndexManager) : list nat :=
  List.filter (fun i => bool_decide (queueAt (_expiredKeys m) i <> []))
    (seq 0 (getKVStoreCount svr)).

(** The effects a dispatch-loop pass is expected to have, in order. *)
Definition iterationTrace (svr : ServerEntry) (m : IndexManager) : list Effect :=
  map (fun i => Schedule scannerName (ScanJob i)) (seq 0 (getKVStoreCount svr))
  ++ [Lock] ++ map Inspect (seq 0 (getKVStoreCount svr)) ++ [Unlock]
  ++ map (fun i => Schedule deleterName (DelJob i)) (shardsWithExpires svr m)
  ++ [Sleep (_pauseTime m)].

(** A pool after the jobs [js] were scheduled on it, in order. *)
Definition scheduleAll (js : list Job) (p : option WorkerPool) : option WorkerPool :=
  foldl (fun p j => schedule j p) p js.

(** The lock discipline of a trace: the lock is taken only when free and
    released only when held, queues are inspected only while it is held,
    and scheduling and sleeping happen only while it is free. *)
Fixpoint lockDiscipline (held : bool) (tr : list Effect) : bool :=
  match tr with
  | [] => negb held
  | Lock :: rest => negb held && lockDiscipline true rest
  | Unlock :: rest => held && lockDiscipline false rest
  | Inspect _ :: rest => held && lockDiscipline held rest
  | Schedule _ _ :: rest => negb held && lockDiscipline held rest
  | Sleep _ :: rest => negb held && lockDiscipline held rest
  end.

(** The engine as [ServerEntry::startup] leaves it: the manager
    constructed and started, nothing logged yet. *)
Definition engineStarted (svr : ServerEntry) (cfg : ServerParams)
    (poolStartup : string -> Z -> Status) : World :=
  mkWorld svr (snd (startup poolStartup (newIndexManager svr cfg))) [].

(** No logged [expireKeyIfNeeded] call was made for a shard that was in
    replicate-only mode at the time of the call. *)
Definition replicaSafe (log : list Invocation) : Prop :=
  Forall (fun inv => invMode inv <> Some REPLICATE_ONLY) log.

(** A switch of a shard to replicate-only mode is admitted when the
    shard's expired queue is empty; every other operation is admitted. *)
Definition switchAdmitted (w : World) (op : Op) : Prop :=
  match op with
  | OpSetMode i REPLICATE_ONLY => queueAt (_expiredKeys (wMgr w)) i = []
  | _ => True
  end.

Fixpoint admitted (ops : list Op) (w : World) : Prop :=
  match ops with
  | [] => True
  | op :: rest => switchAdmitted w op /\ admitted rest (execOp w op)
  end.

(** Shards in replicate-only mode have an empty expired queue, and the
    log so far is replica-safe. *)
Definition replicaInv (w : World) : Prop :=
  (forall i, modeOf (wSvr w) i = Some REPLICATE_ONLY ->
             queueAt (_expiredKeys (wMgr w)) i = [])
  /\ replicaSafe (wLog w).

(** ** Vocabulary of the further properties *)





Definition jobShard (j : Job) : nat :=
  match j with
  | ScanJob i => i
  | DelJob i => i
  end.

Definition poolJobs (p : option WorkerPool) : list Job :=
  match p with
  | Some w => poolQueue w
  | None => []
  end.

(** [_scanPoints] has an entry for every shard id below [N], and every
    job waiting in a pool is for a shard id below [N]. *)
Definition engineSound (N : nat) (m : IndexManager) : Prop :=
  (forall i, (i < N)%nat -> is_Some (_scanPoints m !! i))
  /\ Forall (fun j => (jobShard j < N)%nat) (poolJobs (_indexScanner m))
  /\ Forall (fun j => (jobShard j < N)%nat) (poolJobs (_keyDeleter m)).


(** * The server entry

    [src/tendisplus/server/server_entry.cpp]: the session registry, the
    startup sequence that ends by starting the index manager, shutdown,
    and the destruction of a store.  The collaborators the functions
    call (catalog, network, replication manager, worker pools, sessions)
    are outside the two source files: what they answer is a parameter,
    and the calls made to them are recorded, in order. *)

Module Server.

(** How a call ends: it returns, or the process is ended by
    [LOG(FATAL)], by a failed [INVARIANT], or by the use of a component
    that was never installed.  [line] is the fixed text of the message. *)
Inductive Outcome (A : Type) : Type :=
  | Returns (a : A)
  | Aborts (line : string).
Arguments Returns {A} a.
Arguments Aborts {A} line.

(** The arguments a store is opened with:
    [RocksKVStore(std::to_string(i), cfg, blockCache, mode)]. *)
Record StoreHandle := mkStoreHandle {
  dbId : nat;
  openedMode : StoreMode
}.

(** The calls made to the collaborators. *)
Inductive Effect :=
  | CatalogSetMeta (storeId : nat) (mode : StoreMode)
  | NetworkPrepare
  | NetworkRun
  | NetworkStop
  | ReplStartup
  | ReplStop
  | ReplStopStore (storeId : nat)
  | CatalogStop
  | StoreStop (storeId : nat)
  | StoreDestroy (storeId : nat)
  | FtmcStart
  | FtmcJoin
  | NotifyAll
  | LogError.

Global Instance Effect_eq_dec : EqDecision Effect.
Proof. solve_decision. Defined.

(** The members of [ServerEntry] the functions below read or write.  A
    [unique_ptr] member is [true] (or [Some]) once it holds an object. *)
Record t (Session : Type) := mk {
  _ftmcEnabled : bool;
  _isRunning : bool;
  _isStopped : bool;
  _isShutdowned : bool;
  _network : bool;
  _executor : option WorkerPool;
  _segmentMgr : bool;
  _replMgr : bool;
  _indexMgr : option IndexManager;
  _pessimisticMgr : bool;
  _catalog : bool;
  _kvstores : list StoreHandle;
  _sessions : gmap Z Session;
  _ftmcThd : bool;
  _requirepass : option string;
  _masterauth : option string;
  _versionIncrease : bool;
  _generalLog : bool
}.
Arguments mk {Session}.
Arguments _ftmcEnabled {Session}.
Arguments _isRunning {Session}.
Arguments _isStopped {Session}.
Arguments _isShutdowned {Session}.
Arguments _network {Session}.
Arguments _executor {Session}.
Arguments _segmentMgr {Session}.
Arguments _replMgr {Session}.
Arguments _indexMgr {Session}.
Arguments _pessimisticMgr {Session}.
Arguments _catalog {Session}.
Arguments _kvstores {Session}.
Arguments _sessions {Session}.
Arguments _ftmcThd {Session}.
Arguments _requirepass {Session}.
Arguments _masterauth {Session}.
Arguments _versionIncrease {Session}.
Arguments _generalLog {Session}.

(** The configuration values [startup] reads. *)
Record Params := mkParams {
  requirepass : string;
  masterauth : string;
  versionIncrease : bool;
  generalLog : bool;
  kvStoreCount : nat;
  indexParams : ServerParams
}.

(** What the collaborators answer.  [catalogKVStoreCount] is
    [_catalog->getKVStoreCount()]. *)
Record Env := mkEnv {
  getStoreMainMeta : nat -> Expected StoreMode;
  setStoreMainMeta : nat -> StoreMode -> Status;
  catalogKVStoreCount : nat;
  hardware_concurrency : nat;
  poolStartup : string -> Z -> Status;
  networkPrepare : Status;
  replStartup : Status;
  networkRun : Status;
  catalogStop : Status;
  storeStop : nat -> Status;
  segmentLookup : nat -> Expected KVStore;
  isEmpty : KVStore -> bool;
  isPaused : KVStore -> bool;
  storeDestroy : KVStore -> Status;
  modeAfterDestroy : KVStore -> StoreMode;
  replStopStore : nat -> Status;
  clusterMode : bool;
  migrating : bool
}.

Section WithSessions.
Context {Session : Type}.

(** [sess->id()], [sess->start()] and [sess->cancel()]. *)
Variable sessId : Session -> Z.
Variable sessStart : Session -> Session.
Variable sessCancel : Session -> Status * Session.

Local Abbreviation state := (t Session).

Definition set_sessions (v : gmap Z Session) (st : state) : state :=
  mk (_ftmcEnabled st) (_isRunning st) (_isStopped st) (_isShutdowned st) (_network st)
    (_executor st) (_segmentMgr st) (_replMgr st) (_indexMgr st) (_pessimisticMgr st)
    (_catalog st) (_kvstores st) v (_ftmcThd st) (_requirepass st) (_masterauth st)
    (_versionIncrease st) (_generalLog st).

Definition set_indexMgr (v : option IndexManager) (st : state) : state :=
  mk (_ftmcEnabled st) (_isRunning st) (_isStopped st) (_isShutdowned st) (_network st)
    (_executor st) (_segmentMgr st) (_replMgr st) v (_pessimisticMgr st)
    (_catalog st) (_kvstores st) (_sessions st) (_ftmcThd st) (_requirepass st)
    (_masterauth st) (_versionIncrease st) (_generalLog st).

(** [ServerEntry::ServerEntry()].  [_generalLog] has no initialiser: its
    value until [startup] is whatever the memory held. *)
Definition new (indeterminate : bool) : state :=
  mk false false true false false None false false None false false [] ∅ false
    None None true indeterminate.

(** ** The session registry *)

Definition addSession (sess : Session) (st : state) : Outcome state :=
  if negb (_isRunning st) then Returns st
  else
    let sess := sessStart sess in
    let id := sessId sess in
    if bool_decide (is_Some (_sessions st !! id))
    then Aborts "add conn:,id already exists"
    else Returns (set_sessions (<[id := sess]> (_sessions st)) st).

Definition cancelSession (connId : Z) (st : state) : Status * state :=
  if negb (_isRunning st) then (mkStatus ERR_BUSY "server is shutting down", st)
  else
    match _sessions st !! connId with
    | None => (mkStatus ERR_NOTFOUND "session not found", st)
    | Some sess =>
        let '(s, sess) := sessCancel sess in
        (s, set_sessions (<[connId := sess]> (_sessions st)) st)
    end.

Definition endSession (connId : Z) (st : state) : Outcome state :=
  if negb (_isRunning st) then Returns st
  else
    match _sessions st !! connId with
    | None => Aborts "destroy conn:,not exists"
    | Some _ => Returns (set_sessions (delete connId (_sessions st)) st)
    end.

(** The sessions of the table; the order is that of the table's
    iteration, which the source does not fix. *)
Definition getAllSessions (st : state) : list Session :=
  map snd (map_to_list (_sessions st)).

(** ** [ServerEntry::getKVStoreCount] *)

(** [catalogCount] is [_catalog->getKVStoreCount()]. *)
Definition getKVStoreCount (catalogCount : nat) (st : state) : Outcome nat :=
  if bool_decide (length (_kvstores st) = catalogCount)
  then Returns catalogCount
  else Aborts "INVARIANT(_kvstores.size() == _catalog->getKVStoreCount())".

(** ** [ServerEntry::startup] *)

(** The store-opening loop: the mode a store is opened with is the one
    the catalog records, READ_WRITE when the catalog has no record (one
    is then written). *)
Fixpoint openStores (env : Env) (ids : list nat)
  : Outcome (list StoreHandle * list Effect) :=
  match ids with
  | [] => Returns ([], [])
  | i :: rest =>
      let continue (mode : StoreMode) (tr : list Effect) :=
        match openStores env rest with
        | Returns (stores, later) => Returns (mkStoreHandle i mode :: stores, tr ++ later)
        | Aborts line => Aborts line
        end in
      match getStoreMainMeta env i with
      | Value mode => continue mode []
      | Failure s =>
          if bool_decide (code s = ERR_NOTFOUND) then
            if ok (setStoreMainMeta env i READ_WRITE)
            then continue READ_WRITE [CatalogSetMeta i READ_WRITE]
            else Aborts "catalog setStoreMainMeta error:"
          else Aborts "catalog getStoreMainMeta error:"
      end
  end.

(** The server as the index manager and its jobs see it; [count] is
    what [getKVStoreCount] returns. *)
Definition jobsView (env : Env) (count : nat) : ServerEntry :=
  mkServerEntry (clusterMode env) (migrating env) (segmentLookup env) count.

Definition executorName : string := "req-exec".

Definition startup (env : Env) (cfg : Params) (st : state)
  : Outcome (Status * state * list Effect) :=
  let pass := Some (requirepass cfg) in
  let auth := Some (masterauth cfg) in
  let vi := versionIncrease cfg in
  let gl := generalLog cfg in
  match openStores env (seq 0 (kvStoreCount cfg)) with
  | Aborts line => Aborts line
  | Returns (stores, tr) =>
      if negb (bool_decide (length stores = catalogKVStoreCount env))
      then Aborts "INVARIANT(_kvstores.size() == _catalog->getKVStoreCount())"
      else if negb (bool_decide (catalogKVStoreCount env = kvStoreCount cfg))
      then Aborts "INVARIANT(getKVStoreCount() == kvStoreCount)"
      else
        let base (running stopped : bool) (network : bool) (executor : option WorkerPool)
                 (repl : bool) (index : option IndexManager) (ftmc : bool) : state :=
          mk (_ftmcEnabled st) running stopped (_isShutdowned st) network executor
            true repl index true true stores (_sessions st) ftmc pass auth vi gl in
        let unstarted := Some (mkWorkerPool executorName 0 []) in
        let cpuNum := hardware_concurrency env in
        if bool_decide (cpuNum = 0%nat)
        then Returns (mkStatus ERR_INTERNAL "cpu num cannot be detected",
                      base (_isRunning st) (_isStopped st) (_network st) unstarted
                        (_replMgr st) (_indexMgr st) (_ftmcThd st), tr)
        else
          let '(s, pool) :=
            startPool (poolStartup env) executorName
              (Z.of_nat (Nat.max 4 (cpuNum / 2))) in
          if negb (ok s)
          then Returns (s, base (_isRunning st) (_isStopped st) (_network st) (Some pool)
                             (_replMgr st) (_indexMgr st) (_ftmcThd st), tr)
          else
            let tr := tr ++ [NetworkPrepare] in
            let s := networkPrepare env in
            if negb (ok s)
            then Returns (s, base (_isRunning st) (_isStopped st) true (Some pool)
                               (_replMgr st) (_indexMgr st) (_ftmcThd st), tr)
            else
              let tr := tr ++ [ReplStartup] in
              let s := replStartup env in
              if negb (ok s)
              then Returns (s, base (_isRunning st) (_isStopped st) true (Some pool)
                                 true (_indexMgr st) (_ftmcThd st), tr)
              else
                let '(s, index) :=
                  startup (poolStartup env)
                    (newIndexManager (jobsView env (catalogKVStoreCount env))
                       (indexParams cfg)) in
                if negb (ok s)
                then Returns (s, base (_isRunning st) (_isStopped st) true (Some pool)
                                   true (Some index) (_ftmcThd st), tr)
                else
                  let tr := tr ++ [NetworkRun] in
                  let s := networkRun env in
                  if negb (ok s)
                  then Returns (s, base (_isRunning st) (_isStopped st) true (Some pool)
                                     true (Some index) (_ftmcThd st), tr)
                  else
                    Returns (OK, base true false true (Some pool) true (Some index) true,
                             tr ++ [FtmcStart])
  end.

(** ** [ServerEntry::handleShutdownCmd] and [ServerEntry::toggleFtmc] *)

Definition handleShutdownCmd (st : state) : state :=
  mk (_ftmcEnabled st) (_isRunning st) (_isStopped st) true (_network st)
    (_executor st) (_segmentMgr st) (_replMgr st) (_indexMgr st) (_pessimisticMgr st)
    (_catalog st) (_kvstores st) (_sessions st) (_ftmcThd st) (_requirepass st)
    (_masterauth st) (_versionIncrease st) (_generalLog st).

Definition toggleFtmc (enable : bool) (st : state) : state :=
  mk enable (_isRunning st) (_isStopped st) (_isShutdowned st) (_network st)
    (_executor st) (_segmentMgr st) (_replMgr st) (_indexMgr st) (_pessimisticMgr st)
    (_catalog st) (_kvstores st) (_sessions st) (_ftmcThd st) (_requirepass st)
    (_masterauth st) (_versionIncrease st) (_generalLog st).

(** ** [ServerEntry::stop] *)

(** The members [stop] calls through: [_network], [_executor],
    [_replMgr], [_indexMgr], [_catalog] and [_ftmcThd]. *)
Definition installed (st : state) : bool :=
  _network st && bool_decide (is_Some (_executor st)) && _replMgr st
  && bool_decide (is_Some (_indexMgr st)) && _catalog st && _ftmcThd st.

Fixpoint stopStores (env : Env) (stores : list StoreHandle) : list Effect :=
  match stores with
  | [] => []
  | h :: rest =>
      StoreStop (dbId h)
        :: (if ok (storeStop env (dbId h)) then [] else [LogError])
        ++ stopStores env rest
  end.

(** A call through a member that holds no object is undefined in the
    source; here it ends the call. *)
Definition stop (env : Env) (st : state) : Outcome (state * list Effect) :=
  if negb (_isRunning st) then Returns (st, [])
  else if negb (installed st) then Aborts "call through an empty member"
  else
    let executor := stopPool (_executor st) in
    let index := stop <$> _indexMgr st in
    let keep := _isShutdowned st in
    Returns
      (mk (_ftmcEnabled st) false true keep
         (if keep then _network st else false)
         (if keep then executor else None)
         (if keep then _segmentMgr st else false)
         (if keep then _replMgr st else false)
         (if keep then index else None)
         (if keep then _pessimisticMgr st else false)
         (_catalog st) (_kvstores st) ∅ (_ftmcThd st) (_requirepass st)
         (_masterauth st) (_versionIncrease st) (_generalLog st),
       [NotifyAll; NetworkStop; ReplStop; CatalogStop]
         ++ (if ok (catalogStop env) then [] else [LogError])
         ++ stopStores env (_kvstores st)
         ++ [FtmcJoin; NotifyAll]).

(** ** [ServerEntry::destroyStore] *)

Definition destroyStore (env : Env) (storeId : nat) (isForce : bool) (st : state)
  : Outcome (Status * state * list Effect) :=
  if negb (_segmentMgr st) then Aborts "call through an empty member"
  else
    match segmentLookup env storeId with
    | Failure s => Returns (s, st, [])
    | Value store =>
        if negb isForce && negb (isEmpty env store)
        then Returns (mkStatus ERR_INTERNAL "try to close an unempty store", st, [])
        else if negb (isPaused env store)
        then Returns (mkStatus ERR_INTERNAL "please pausestore first before destroystore",
                      st, [])
        else if negb (_catalog st) then Aborts "call through an empty member"
        else
          match getStoreMainMeta env storeId with
          | Failure s => Returns (s, st, [])
          | Value _ =>
              let tr := [CatalogSetMeta storeId STORE_NONE] in
              let s := setStoreMainMeta env storeId STORE_NONE in
              if negb (ok s) then Returns (s, st, tr)
              else
                let tr := tr ++ [StoreDestroy storeId] in
                let s := storeDestroy env store in
                if negb (ok s) then Returns (s, st, tr)
                else if negb (bool_decide (modeAfterDestroy env store = STORE_NONE))
                then Aborts "INVARIANT(store->getMode() == KVStore::StoreMode::STORE_NONE)"
                else if negb (_replMgr st) then Aborts "call through an empty member"
                else
                  let tr := tr ++ [ReplStopStore storeId] in
                  let s := replStopStore env storeId in
                  if negb (ok s) then Returns (s, st, tr)
                  else
                    match _indexMgr st with
                    | None => Aborts "call through an empty member"
                    | Some index =>
                        let '(s, index) := stopStore storeId index in
                        Returns (s, set_indexMgr (Some index) st, tr)
                    end
          end
    end.

(** ** Calls on the server, in sequence *)

Inductive Call :=
  | CallStartup (env : Env) (cfg : Params)
  | CallStop (env : Env)
  | CallAddSession (sess : Session)
  | CallCancelSession (connId : Z)
  | CallEndSession (connId : Z)
  | CallDestroyStore (env : Env) (storeId : nat) (isForce : bool)
  | CallShutdownCmd
  | CallToggleFtmc (enable : bool).

Definition call (c : Call) (st : state) : Outcome state :=
  match c with
  | CallStartup env cfg =>
      match startup env cfg st with
      | Returns (_, st, _) => Returns st
      | Aborts line => Aborts line
      end
  | CallStop env =>
      match stop env st with
      | Returns (st, _) => Returns st
      | Aborts line => Aborts line
      end
  | CallAddSession sess => addSession sess st
  | CallCancelSession connId => Returns (snd (cancelSession connId st))
  | CallEndSession connId => endSession connId st
  | CallDestroyStore env storeId isForce =>
      match destroyStore env storeId isForce st with
      | Returns (_, st, _) => Returns st
      | Aborts line => Aborts line
      end
  | CallShutdownCmd => Returns (handleShutdownCmd st)
  | CallToggleFtmc enable => Returns (toggleFtmc enable st)
  end.

Fixpoint calls (cs : list Call) (st : state) : Outcome state :=
  match cs with
  | [] => Returns st
  | c :: rest =>
      match call c st with
      | Returns st => calls rest st
      | Aborts line => Aborts line
      end
  end.

End WithSessions.

Arguments Call Session : clear implicits.

End Server.

(** ** Vocabulary of the server properties *)

(** The mode the catalog gives for a store: the recorded one, READ_WRITE
    when the lookup fails. *)
Definition catalogMode (env : Server.Env) (i : nat) : StoreMode :=
  match Server.getStoreMainMeta env i with
  | Value mode => mode
  | Failure _ => READ_WRITE
  end.

Definition unrecorded (env : Server.Env) (i : nat) : bool :=
  match Server.getStoreMainMeta env i with
  | Value _ => false
  | Failure _ => true
  end.

(** The catalog cannot serve store [i]: the lookup fails with a code
    other than ERR_NOTFOUND, or the record cannot be written. *)
Definition catalogFault (env : Server.Env) (i : nat) : bool :=
  match Server.getStoreMainMeta env i with
  | Value _ => false
  | Failure s =>
      if bool_decide (code s = ERR_NOTFOUND)
      then negb (ok (Server.setStoreMainMeta env i READ_WRITE))
      else true
  end.

Definition catalogWrites (env : Server.Env) (count : nat) : list Server.Effect :=
  map (fun i => Server.CatalogSetMeta i READ_WRITE)
      (List.filter (unrecorded env) (seq 0 count)).

Definition isCatalogWrite (e : Server.Effect) : bool :=
  match e with
  | Server.CatalogSetMeta _ _ => true
  | _ => false
  end.


(** What holds of the server between calls: a running server has every
    component installed, [_isStopped] is the negation of [_isRunning],
    and a server that is not running has no session. *)
Definition serverSound {Session : Type} (st : Server.t Session) : Prop :=
  (Server._isRunning st = true ->
     Server.installed st = true /\ Server._segmentMgr st = true
     /\ Server._pessimisticMgr st = true)
  /\ Server._isStopped st = negb (Server._isRunning st)
  /\ (Server._isRunning st = false -> Server._sessions st = ∅).

(** Every session is registered under its own id. *)
Definition idsConsistent {Session : Type} (sessId : Session -> Z)
    (st : Server.t Session) : Prop :=
  forall k s, Server._sessions st !! k = Some s -> sessId s = k.

(** The number of entries in all the expired queues. *)
Definition queuedAll (t : gmap nat (list TTLIndex)) : Z :=
  map_fold (fun _ q acc => Z.of_nat (length q) + acc) 0 t.

(** The two running totals account for the queues: modulo 2^64,
    [_totalEnqueue - _totalDequeue] is the number of queued entries. *)
Definition balanced (m : IndexManager) : Prop :=
  wrap64 (_totalEnqueue m - _totalDequeue m) = wrap64 (queuedAll (_expiredKeys m)).


(** ** Sample server *)

(** A session that is its connection id; starting and cancelling leave
    it as it is. *)
Definition sampleCancel (s : Z) : Status * Z := (OK, s).

(** Two stores: store 0 recorded as a replica, store 1 without a
    record; [cpu] processors; the listener answers [run]. *)
Definition sampleEnvWith (cpu : nat) (run : Status) : Server.Env :=
  Server.mkEnv
    (fun i => if bool_decide (i = 0%nat) then Value REPLICATE_ONLY else Failure noSuchStore)
    (fun _ _ => OK) 2 cpu (fun _ _ => OK) OK OK run OK (fun _ => OK)
    (fun i => if bool_decide (i = 0%nat) then Value (sampleStore REPLICATE_ONLY sampleIndex)
              else Failure noSuchStore)
    (fun _ => false) (fun _ => true) (fun _ => OK) (fun _ => STORE_NONE) (fun _ => OK)
    false false.

Definition sampleEnv : Server.Env := sampleEnvWith 8 OK.

Definition sampleConfig : Server.Params :=
  Server.mkParams EmptyString EmptyString true false 2 sampleParams.

(** What [startup] gives on a constructed server. *)
Definition sampleStartup (env : Server.Env)
  : Status * Server.t Z * list Server.Effect :=
  match Server.startup env sampleConfig (Server.new false) with
  | Server.Returns r => r
  | Server.Aborts _ => (OK, Server.new false, [])
  end.

Definition sampleRunning : Server.t Z := snd (fst (sampleStartup sampleEnv)).

Definition sampleSessId (s : Z) : Z := s.

Definition sampleStart (s : Z) : Z := s.


Definition sampleCalls : list (Server.Call Z) :=
  [Server.CallStartup sampleEnv sampleConfig; Server.CallAddSession 7;
   Server.CallAddSession 9; Server.CallCancelSession 7; Server.CallEndSession 9;
   Server.CallDestroyStore sampleEnv 0 true; Server.CallAddSession 11].

Definition sampleAfterCalls : Server.t Z :=
  match Server.calls sampleSessId sampleStart sampleCancel sampleCalls (Server.new false) with
  | Server.Returns st => st
  | Server.Aborts _ => Server.new false
  end.

(** * Properties *)

(** ** Reading the tables after a write *)

Lemma flagAt_insert (t : gmap nat bool) (i j : nat) (b : bool) :
  flagAt (<[i := b]> t) j = if decide (i = j) then b else flagAt t j.
Proof. unfold flagAt. rewrite lookup_insert. by case_decide. Qed.

Lemma cntAt_insert (t : gmap nat Z) (i j : nat) (z : Z) :
  cntAt (<[i := z]> t) j = if decide (i = j) then z else cntAt t j.
Proof. unfold cntAt. rewrite lookup_insert. by case_decide. Qed.

Lemma pointAt_insert (t : gmap nat string) (i j : nat) (s : string) :
  pointAt (<[i := s]> t) j = if decide (i = j) then s else pointAt t j.
Proof. unfold pointAt. rewrite lookup_insert. by case_decide. Qed.

Lemma queueAt_insert (t : gmap nat (list TTLIndex)) (i j : nat) (q : list TTLIndex) :
  queueAt (<[i := q]> t) j = if decide (i = j) then q else queueAt t j.
Proof. unfold queueAt. rewrite lookup_insert. by case_decide. Qed.

(** ** The scan loop *)

Section ScanLoop.
Variable storeId : nat.

Lemma scanLoop_frame (records : list TTLIndex) (m : IndexManager) :
  let m' := scanLoop records storeId m in
  _isRunning m' = _isRunning m /\ _runner m' = _runner m /\
  _indexScanner m' = _indexScanner m /\ _keyDeleter m' = _keyDeleter m /\
  _scanJobStatus m' = _scanJobStatus m /\ _delJobStatus m' = _delJobStatus m /\
  _disableStatus m' = _disableStatus m /\ _scanJobCnt m' = _scanJobCnt m /\
  _delJobCnt m' = _delJobCnt m /\ _totalDequeue m' = _totalDequeue m /\
  _scanBatch m' = _scanBatch m /\ _delBatch m' = _delBatch m /\
  _pauseTime m' = _pauseTime m.
Proof.
  revert m. induction records as [|record rest IH]; intros m; cbn [scanLoop].
  - split_and!; reflexivity.
  - cbv zeta. case_match.
    + split_and!; reflexivity.
    + apply (IH (enqueue record storeId m)).
Qed.

(** The loop appends a prefix of what the cursor still holds, and
    nothing else happens to the queue, on this shard or another. *)
Lemma scanLoop_appends (records : list TTLIndex) (m : IndexManager) :
  exists appended rest,
    records = appended ++ rest /\
    queueAt (_expiredKeys (scanLoop records storeId m)) storeId
      = queueAt (_expiredKeys m) storeId ++ appended /\
    (forall j, j <> storeId ->
       queueAt (_expiredKeys (scanLoop records storeId m)) j
         = queueAt (_expiredKeys m) j /\
       pointAt (_scanPoints (scanLoop records storeId m)) j
         = pointAt (_scanPoints m) j) /\
    (appended = [] -> scanLoop records storeId m = m) /\
    (Z.of_nat (length (queueAt (_expiredKeys m) storeId)) < _scanBatch m ->
       Z.of_nat (length (queueAt (_expiredKeys m) storeId ++ appended)) <= _scanBatch m).
Proof.
  revert m. induction records as [|record rest IH]; intros m.
  - exists [], []. simpl. rewrite app_nil_r. split_and!; auto; lia.
  - cbn [scanLoop]. cbv zeta.
    set (m1 := enqueue record storeId m).
    assert (Hq : queueAt (_expiredKeys m1) storeId
                 = queueAt (_expiredKeys m) storeId ++ [record]).
    { subst m1. simpl. rewrite queueAt_insert. by case_decide. }
    assert (Ho : forall j, j <> storeId ->
               queueAt (_expiredKeys m1) j = queueAt (_expiredKeys m) j /\
               pointAt (_scanPoints m1) j = pointAt (_scanPoints m) j).
    { intros j Hj. subst m1. simpl. rewrite queueAt_insert, pointAt_insert.
      split; case_decide; congruence. }
    assert (Hb : _scanBatch m1 = _scanBatch m) by reflexivity.
    destruct (Z.of_nat (length (queueAt (_expiredKeys m1) storeId)) =? _scanBatch m1) eqn:E.
    + exists [record], rest. split_and!; auto.
      * intros; discriminate.
      * intros _. apply Z.eqb_eq in E. rewrite <- Hq. lia.
    + destruct (IH m1) as (app & rest' & Hrec & Hqueue & Hother & _ & Hbound).
      exists (record :: app), rest'. split_and!.
      * simpl. by rewrite Hrec.
      * rewrite Hqueue, Hq. by rewrite <- app_assoc.
      * intros j Hj. destruct (Hother j Hj) as [-> ->]. by apply Ho.
      * intros; discriminate.
      * intros Hlt. apply Z.eqb_neq in E.
        rewrite Hq in Hbound, E. rewrite <- app_assoc in Hbound.
        rewrite Hb in Hbound, E. apply Hbound.
        rewrite length_app in E |- *. simpl in E |- *. lia.
Qed.
End ScanLoop.

(** ** [stopStore] *)

(** C7. [stopStore(i)] leaves shard [i] with an empty expired queue, an
    empty resume cursor, both in-flight counters at zero and the disabled
    flag set; the queue, resume cursor, busy flags and disabled flag of
    every other shard, and the two totals, are what they were. *)
Theorem stopStore_resets_only_its_shard (i : nat) (m : IndexManager) :
  let m' := snd (stopStore i m) in
  (queueAt (_expiredKeys m') i = []
   /\ pointAt (_scanPoints m') i = EmptyString
   /\ cntAt (_scanJobCnt m') i = 0
   /\ cntAt (_delJobCnt m') i = 0
   /\ flagAt (_disableStatus m') i = true)
  /\ (forall j, j <> i ->
        queueAt (_expiredKeys m') j = queueAt (_expiredKeys m) j
        /\ pointAt (_scanPoints m') j = pointAt (_scanPoints m) j
        /\ flagAt (_scanJobStatus m') j = flagAt (_scanJobStatus m) j
        /\ flagAt (_delJobStatus m') j = flagAt (_delJobStatus m) j
        /\ flagAt (_disableStatus m') j = flagAt (_disableStatus m) j)
  /\ _totalEnqueue m' = _totalEnqueue m
  /\ _totalDequeue m' = _totalDequeue m.
Proof.
  cbv zeta. unfold stopStore. cbn.
  split; [|split; [|split; reflexivity]].
  - rewrite queueAt_insert, pointAt_insert, !cntAt_insert, flagAt_insert.
    rewrite !decide_True by reflexivity. split_and!; reflexivity.
  - intros j Hj.
    rewrite queueAt_insert, pointAt_insert, flagAt_insert.
    rewrite !decide_False by congruence. split_and!; reflexivity.
Qed.

(** ** The scanner job: what it returns *)

Lemma scanGuard_frame (i : nat) (m : IndexManager) :
  _expiredKeys (scanGuard i m) = _expiredKeys m
  /\ _scanPoints (scanGuard i m) = _scanPoints m
  /\ _totalEnqueue (scanGuard i m) = _totalEnqueue m
  /\ _disableStatus (scanGuard i m) = _disableStatus m
  /\ _isRunning (scanGuard i m) = _isRunning m.
Proof. split_and!; reflexivity. Qed.

(** C4 (as amended).  The job's status is settled by the shard lookup and
    the transaction begin alone: when the job gets as far as the lookup, a
    failed lookup or a failed transaction begin is returned as it is; on
    every other path the job returns success.  In particular, once the
    lookup and the transaction begin succeeded, the job returns success
    whatever the cursor reads or fails to read. *)
Theorem scan_status (svr : ServerEntry) (i : nat) (m : IndexManager) :
  fst (scanExpiredKeysJob svr i m) =
    (if reachesLookup svr i m then
       match getDb svr i with
       | Failure s => s
       | Value store =>
           if bool_decide (getMode store = REPLICATE_ONLY) || negb (isOpen store)
           then OK
           else match createTransaction store with
                | Failure s => s
                | Value _ => OK
                end
       end
     else OK)
  /\ (forall store txn,
        getDb svr i = Value store -> createTransaction store = Value txn ->
        fst (scanExpiredKeysJob svr i m) = OK).
Proof.
  assert (Heq : fst (scanExpiredKeysJob svr i m) =
    (if reachesLookup svr i m then
       match getDb svr i with
       | Failure s => s
       | Value store =>
           if bool_decide (getMode store = REPLICATE_ONLY) || negb (isOpen store)
           then OK
           else match createTransaction store with
                | Failure s => s
                | Value _ => OK
                end
       end
     else OK)).
  { unfold scanExpiredKeysJob, reachesLookup.
    destruct (flagAt (_scanJobStatus m) i); [reflexivity|].
    cbn [_disableStatus set_scanJobStatus negb andb].
    destruct (flagAt (_disableStatus m) i); [reflexivity|].
    unfold scanGuarded. cbn [negb andb].
    destruct (clusterEnabled svr && existMigrateTask svr); [reflexivity|].
    cbn [negb].
    destruct (getDb svr i) as [store|s]; [|reflexivity].
    destruct (bool_decide (getMode store = REPLICATE_ONLY) || negb (isOpen store));
      [reflexivity|].
    destruct (createTransaction store) as [txn|s]; [|reflexivity].
    destruct (positionCursor _ _); reflexivity. }
  split; [exact Heq|].
  intros store txn Hdb Htxn. rewrite Heq, Hdb, Htxn.
  by repeat case_match.
Qed.

(** C4, the claim as stated fails: a shard lookup that fails makes the
    job return the lookup's error, and so does a transaction begin that
    fails. *)
Lemma scan_returns_storage_error :
  fst (scanExpiredKeysJob (sampleServer false false (Failure noSuchStore)) 0 sampleManager)
    = noSuchStore
  /\ ok noSuchStore = false
  /\ fst (scanExpiredKeysJob
            (sampleServer false false
               (Value (mkKVStore READ_WRITE true 10
                         (Failure (mkStatus ERR_INTERNAL "begin failed")))))
            0 sampleManager)
     = mkStatus ERR_INTERNAL "begin failed".
Proof. split_and!; vm_compute; reflexivity. Qed.

(** C6. On a shard that resolves to a store in replicate-only mode, or to
    a store that is not open, the job returns success, and the expired
    queues, the resume cursors and [_totalEnqueue] are untouched. *)
Theorem scan_skips_replica_or_closed
    (svr : ServerEntry) (i : nat) (m : IndexManager) (store : KVStore) :
  getDb svr i = Value store ->
  getMode store = REPLICATE_ONLY \/ isOpen store = false ->
  fst (scanExpiredKeysJob svr i m) = OK
  /\ _expiredKeys (snd (scanExpiredKeysJob svr i m)) = _expiredKeys m
  /\ _scanPoints (snd (scanExpiredKeysJob svr i m)) = _scanPoints m
  /\ _totalEnqueue (snd (scanExpiredKeysJob svr i m)) = _totalEnqueue m.
Proof.
  intros Hdb Hmode.
  assert (Hskip : bool_decide (getMode store = REPLICATE_ONLY) || negb (isOpen store) = true).
  { destruct Hmode as [-> | ->]; [reflexivity|]. apply orb_true_r. }
  unfold scanExpiredKeysJob.
  destruct (flagAt (_scanJobStatus m) i); [done|].
  cbn [_disableStatus set_scanJobStatus].
  destruct (flagAt (_disableStatus m) i); [done|].
  unfold scanGuarded.
  destruct (clusterEnabled svr && existMigrateTask svr); [done|].
  rewrite Hdb, Hskip. done.
Qed.

Lemma scan_skips_replica_or_closed_witness :
  fst (scanExpiredKeysJob
         (sampleServer false false (Value (sampleStore REPLICATE_ONLY sampleIndex)))
         0 sampleManager) = OK
  /\ _expiredKeys (snd (scanExpiredKeysJob
         (sampleServer false false (Value (sampleStore REPLICATE_ONLY sampleIndex)))
         0 sampleManager)) = _expiredKeys sampleManager
  /\ _scanPoints (snd (scanExpiredKeysJob
         (sampleServer false false (Value (sampleStore REPLICATE_ONLY sampleIndex)))
         0 sampleManager)) = _scanPoints sampleManager
  /\ _totalEnqueue (snd (scanExpiredKeysJob
         (sampleServer false false (Value (sampleStore REPLICATE_ONLY sampleIndex)))
         0 sampleManager)) = _totalEnqueue sampleManager.
Proof.
  apply (scan_skips_replica_or_closed
           (sampleServer false false (Value (sampleStore REPLICATE_ONLY sampleIndex)))
           0%nat sampleManager (sampleStore REPLICATE_ONLY sampleIndex)).
  - reflexivity.
  - left. reflexivity.
Defined.

(** ** The scanner job: busy flag and in-flight counter *)

Lemma scanGuarded_frame (svr : ServerEntry) (i : nat) (m : IndexManager) :
  let m' := snd (scanGuarded svr i m) in
  _scanJobStatus m' = _scanJobStatus m
  /\ _delJobStatus m' = _delJobStatus m
  /\ _disableStatus m' = _disableStatus m
  /\ _isRunning m' = _isRunning m
  /\ _scanJobCnt m' =
       (if clusterEnabled svr && existMigrateTask svr then _scanJobCnt m
        else <[i := wrap32 (cntAt (_scanJobCnt m) i + 1)]> (_scanJobCnt m)).
Proof.
  cbv zeta. unfold scanGuarded.
  destruct (clusterEnabled svr && existMigrateTask svr); [by split_and!|].
  repeat case_match; cbn [snd]; try by split_and!.
  match goal with
  | |- context [scanLoop ?l ?i ?m0] =>
      pose proof (scanLoop_frame i l m0) as F; cbv zeta in F
  end.
  destruct F as (F1 & _ & _ & _ & F2 & F3 & F4 & F5 & _).
  rewrite F1, F2, F3, F4, F5. by split_and!.
Qed.

(** X1. When the shard is not disabled, a scanner job whose
    compare-and-swap succeeded has released the busy flag when it
    returns, on every exit path. *)
Lemma scan_releases_busy_flag (svr : ServerEntry) (i : nat) (m : IndexManager) :
  flagAt (_scanJobStatus m) i = false ->
  flagAt (_disableStatus m) i = false ->
  flagAt (_scanJobStatus (snd (scanExpiredKeysJob svr i m))) i = false.
Proof.
  intros Hbusy Hdis. unfold scanExpiredKeysJob. rewrite Hbusy.
  cbn [_disableStatus set_scanJobStatus]. rewrite Hdis.
  destruct (scanGuarded svr i _) as [s m']. cbn [snd].
  unfold scanGuard. cbn. rewrite flagAt_insert. by rewrite decide_True.
Qed.

(** When the shard is disabled, the job returns with the flag it has
    just set still set. *)
Lemma scan_keeps_busy_flag_when_disabled (svr : ServerEntry) (i : nat) (m : IndexManager) :
  flagAt (_scanJobStatus m) i = false ->
  flagAt (_disableStatus m) i = true ->
  flagAt (_scanJobStatus (snd (scanExpiredKeysJob svr i m))) i = true.
Proof.
  intros Hbusy Hdis. unfold scanExpiredKeysJob. rewrite Hbusy.
  cbn [_disableStatus set_scanJobStatus]. rewrite Hdis.
  cbn. rewrite flagAt_insert. by rewrite decide_True.
Qed.



(** On the migrate-task return the guard decrements a counter the job
    has not incremented. *)
Lemma scan_counter_on_migration (svr : ServerEntry) (i : nat) (m : IndexManager) :
  flagAt (_scanJobStatus m) i = false ->
  flagAt (_disableStatus m) i = false ->
  clusterEnabled svr && existMigrateTask svr = true ->
  cntAt (_scanJobCnt (snd (scanExpiredKeysJob svr i m))) i
    = wrap32 (cntAt (_scanJobCnt m) i - 1).
Proof.
  intros Hbusy Hdis Hmig. unfold scanExpiredKeysJob. rewrite Hbusy.
  cbn [_disableStatus set_scanJobStatus]. rewrite Hdis.
  unfold scanGuarded. rewrite Hmig. cbn.
  rewrite cntAt_insert. by rewrite decide_True.
Qed.

(** C1, at the failing input.  Shard 0 has been stopped, so its disabled
    flag is set and both busy flags are clear; the scanner job and the
    deleter job each win their compare-and-swap, take the disabled
    return, and leave their busy flag set. *)
Theorem busy_flags_left_set_on_disabled_return :
  let svr := sampleServer false false (Value (sampleStore READ_WRITE sampleIndex)) in
  let m := snd (stopStore 0 sampleManager) in
  (flagAt (_disableStatus m) 0 = true
   /\ flagAt (_scanJobStatus m) 0 = false
   /\ flagAt (_delJobStatus m) 0 = false)
  /\ flagAt (_scanJobStatus (snd (scanExpiredKeysJob svr 0 m))) 0 = true
  /\ flagAt (_delJobStatus (tryDelExpiredKeysJob 0 m).1.2) 0 = true.
Proof.
  cbv zeta.
  assert (Hm : flagAt (_disableStatus (snd (stopStore 0 sampleManager))) 0 = true
               /\ flagAt (_scanJobStatus (snd (stopStore 0 sampleManager))) 0 = false
               /\ flagAt (_delJobStatus (snd (stopStore 0 sampleManager))) 0 = false)
    by (split_and!; vm_compute; reflexivity).
  split; [exact Hm|]. destruct Hm as (Hdis & Hscan & Hdel). split.
  - by apply scan_keeps_busy_flag_when_disabled.
  - unfold tryDelExpiredKeysJob. rewrite Hdel.
    cbn [_disableStatus set_delJobStatus]. rewrite Hdis. cbn.
    rewrite flagAt_insert. by rewrite decide_True.
Qed.

(** C10, at the failing input.  With cluster mode on and a migrate task
    present, the job on a freshly constructed manager returns through the
    guard without having incremented [_scanJobCnt[0]]: the counter goes
    from 0 to 2^32 - 1. *)
Theorem scan_counter_wraps_on_migration_return :
  let svr := sampleServer true true (Value (sampleStore READ_WRITE sampleIndex)) in
  cntAt (_scanJobCnt sampleManager) 0 = 0
  /\ cntAt (_scanJobCnt (snd (scanExpiredKeysJob svr 0 sampleManager))) 0 = 4294967295.
Proof.
  cbv zeta. split; [vm_compute; reflexivity|].
  rewrite scan_counter_on_migration; [|vm_compute; reflexivity..].
  vm_compute. reflexivity.
Qed.

(** ** Work done by one job *)

(** What a scanner job appends to its shard's queue: a prefix of what
    the positioned cursor holds; other shards' queues are untouched; and
    a pass that starts below [_scanBatch] stops at [_scanBatch]. *)
Lemma scan_appends (svr : ServerEntry) (i : nat) (m : IndexManager) :
  exists appended,
    queueAt (_expiredKeys (snd (scanExpiredKeysJob svr i m))) i
      = queueAt (_expiredKeys m) i ++ appended
    /\ (forall j, j <> i ->
          queueAt (_expiredKeys (snd (scanExpiredKeysJob svr i m))) j
            = queueAt (_expiredKeys m) j)
    /\ (appended = [] \/
        exists store txn cursor rest,
          getDb svr i = Value store
          /\ (getMode store = REPLICATE_ONLY -> False)
          /\ isOpen store = true
          /\ createTransaction store = Value txn
          /\ positionCursor (pointAt (_scanPoints m) i)
               (createTTLIndexCursor txn (getCurrentTime store)) = Some cursor
          /\ pending cursor = appended ++ rest)
    /\ (Z.of_nat (length (queueAt (_expiredKeys m) i)) < _scanBatch m ->
        Z.of_nat (length (queueAt (_expiredKeys m) i ++ appended)) <= _scanBatch m).
Proof.
  assert (Hnil : forall m', _expiredKeys m' = _expiredKeys m ->
            exists appended,
              queueAt (_expiredKeys m') i = queueAt (_expiredKeys m) i ++ appended
              /\ (forall j, j <> i -> queueAt (_expiredKeys m') j = queueAt (_expiredKeys m) j)
              /\ (appended = [] \/
                  exists store txn cursor rest,
                    getDb svr i = Value store
                    /\ (getMode store = REPLICATE_ONLY -> False)
                    /\ isOpen store = true
                    /\ createTransaction store = Value txn
                    /\ positionCursor (pointAt (_scanPoints m) i)
                         (createTTLIndexCursor txn (getCurrentTime store)) = Some cursor
                    /\ pending cursor = appended ++ rest)
              /\ (Z.of_nat (length (queueAt (_expiredKeys m) i)) < _scanBatch m ->
                  Z.of_nat (length (queueAt (_expiredKeys m) i ++ appended)) <= _scanBatch m)).
  { intros m' ->. exists []. rewrite app_nil_r. split_and!; auto. lia. }
  unfold scanExpiredKeysJob.
  destruct (flagAt (_scanJobStatus m) i); [by apply Hnil|].
  cbn [_disableStatus set_scanJobStatus].
  destruct (flagAt (_disableStatus m) i); [by apply Hnil|].
  unfold scanGuarded.
  destruct (clusterEnabled svr && existMigrateTask svr); [by apply Hnil|].
  destruct (getDb svr i) as [store|s] eqn:Hdb; [|by apply Hnil].
  destruct (bool_decide (getMode store = REPLICATE_ONLY) || negb (isOpen store)) eqn:Hmode;
    [by apply Hnil|].
  apply orb_false_iff in Hmode as [Hrw Hopen].
  apply bool_decide_eq_false in Hrw. apply negb_false_iff in Hopen.
  destruct (createTransaction store) as [txn|s] eqn:Htxn; [|by apply Hnil].
  cbn [_scanPoints set_scanJobCnt set_scanJobStatus].
  destruct (positionCursor _ _) as [cursor|] eqn:Hpos; [|by apply Hnil].
  cbn [snd]. rewrite (proj1 (scanGuard_frame i _)).
  match goal with
  | |- context [scanLoop ?l i ?m0] =>
      destruct (scanLoop_appends i l m0) as (app & rest & Hrec & Hq & Ho & _ & Hb)
  end.
  exists app. cbn in Hq, Ho, Hb. split_and!; auto.
  - intros j Hj. by destruct (Ho j Hj).
  - right. by exists store, txn, cursor, rest.
Qed.

Section DelLoop.
Variable storeId : nat.

(** The loop pops a prefix of the queue, makes one call per popped
    entry in queue order, and stops at [_delBatch] pops at the latest
    when the counter can reach [_delBatch]. *)
Lemma delLoop_pops (queue : list TTLIndex) (deletes : Z) (m : IndexManager) :
  queueAt (_expiredKeys m) storeId = queue ->
  exists popped,
    queue = popped ++ queueAt (_expiredKeys (delLoop queue storeId deletes m).1.2) storeId
    /\ (delLoop queue storeId deletes m).2 = map callOf popped
    /\ (0 <= deletes < _delBatch m -> _delBatch m < 2 ^ 32 ->
        (delLoop queue storeId deletes m).1.1 = deletes + Z.of_nat (length popped)
        /\ deletes + Z.of_nat (length popped) <= _delBatch m)
    /\ _delJobStatus (delLoop queue storeId deletes m).1.2 = _delJobStatus m
    /\ _delJobCnt (delLoop queue storeId deletes m).1.2 = _delJobCnt m
    /\ _isRunning (delLoop queue storeId deletes m).1.2 = _isRunning m
    /\ (forall j, j <> storeId ->
          queueAt (_expiredKeys (delLoop queue storeId deletes m).1.2) j
            = queueAt (_expiredKeys m) j).
Proof.
  revert deletes m. induction queue as [|index rest IH]; intros deletes m Hq.
  - exists []. cbn. rewrite Hq. split_and!; auto. intros; lia.
  - cbn [delLoop]. cbv zeta.
    set (m1 := set_totalDequeue _ _).
    assert (Hq1 : queueAt (_expiredKeys m1) storeId = rest).
    { subst m1. cbn. rewrite queueAt_insert. by rewrite decide_True. }
    assert (Ho1 : forall j, j <> storeId ->
              queueAt (_expiredKeys m1) j = queueAt (_expiredKeys m) j).
    { intros j Hj. subst m1. cbn. rewrite queueAt_insert. by rewrite decide_False. }
    assert (Hb1 : _delBatch m1 = _delBatch m) by reflexivity.
    destruct (wrap32 (deletes + 1) =? _delBatch m1) eqn:E.
    + exists [index]. cbn [fst snd]. rewrite Hq1. split_and!; auto.
      intros Hd Hmax. apply Z.eqb_eq in E. rewrite Hb1 in E.
      unfold wrap32 in *. rewrite Z.mod_small in E |- * by lia.
      cbn [length]. lia.
    + destruct (IH (wrap32 (deletes + 1)) m1 Hq1)
        as (popped & Hsplit & Hcalls & Hcount & F1 & F2 & F3 & Ho).
      destruct (delLoop rest storeId (wrap32 (deletes + 1)) m1) as [[d' m'] calls].
      cbn [fst snd] in *.
      exists (index :: popped). split_and!; auto.
      * cbn. by rewrite <- Hsplit.
      * cbn. by rewrite Hcalls.
      * intros Hd Hmax. apply Z.eqb_neq in E. rewrite Hb1 in E, Hcount.
        unfold wrap32 in *. rewrite Z.mod_small in E, Hcount by lia.
        destruct Hcount as [-> Hle]; [lia..|].
        cbn [length]. lia.
      * intros j Hj. rewrite (Ho j Hj). by apply Ho1.
Qed.
End DelLoop.

(** What a deleter job pops: a prefix of the queue, one
    [expireKeyIfNeeded] call per popped entry; at most [_delBatch]
    entries when [_delBatch] is at least 1. *)
Lemma del_pops (i : nat) (m : IndexManager) :
  exists popped,
    queueAt (_expiredKeys m) i
      = popped ++ queueAt (_expiredKeys (tryDelExpiredKeysJob i m).1.2) i
    /\ (tryDelExpiredKeysJob i m).2 = map callOf popped
    /\ (0 < _delBatch m < 2 ^ 32 -> Z.of_nat (length popped) <= _delBatch m)
    /\ (forall j, j <> i ->
          queueAt (_expiredKeys (tryDelExpiredKeysJob i m).1.2) j
            = queueAt (_expiredKeys m) j)
    /\ _isRunning (tryDelExpiredKeysJob i m).1.2 = _isRunning m.
Proof.
  unfold tryDelExpiredKeysJob.
  destruct (flagAt (_delJobStatus m) i).
  { exists []. cbn. split_and!; auto. intros; lia. }
  cbn [_disableStatus set_delJobStatus].
  destruct (flagAt (_disableStatus m) i).
  { exists []. cbn. split_and!; auto. intros; lia. }
  cbn [_expiredKeys set_delJobCnt set_delJobStatus].
  match goal with
  | |- context [delLoop ?q i 0 ?m0] =>
      destruct (delLoop_pops i q 0 m0 eq_refl)
        as (popped & Hsplit & Hcalls & Hcount & _ & _ & Hrun & Ho);
      destruct (delLoop q i 0 m0) as [[d' m'] calls]
  end.
  cbn [fst snd] in *. exists popped. split_and!; auto.
  intros Hb. cbn in Hcount. destruct Hcount as [_ Hle]; lia.
Qed.

(** C2, at the failing input.  With [_scanBatch = 2] and five expired
    entries in the shard's index, a first scanner pass on the constructed
    manager fills the queue to two entries and stops; the next pass,
    started while the queue still holds those two entries, appends the
    three remaining ones: the queue's size is never equal to
    [_scanBatch] again, and the pass runs to the end of the index. *)
Theorem scan_pass_exceeds_batch_on_full_queue :
  let svr := sampleServer false false (Value (sampleStore READ_WRITE sampleIndex)) in
  let m1 := snd (scanExpiredKeysJob svr 0 sampleManager) in
  let m2 := snd (scanExpiredKeysJob svr 0 m1) in
  _scanBatch m1 = 2
  /\ queueAt (_expiredKeys m1) 0 = map sampleEntry ["a"; "b"]%string
  /\ queueAt (_expiredKeys m2) 0
     = queueAt (_expiredKeys m1) 0 ++ map sampleEntry ["c"; "d"; "e"]%string
  /\ _totalEnqueue m2 = _totalEnqueue m1 + 3.
Proof. cbv zeta. split_and!; vm_compute; reflexivity. Qed.

(** ** Resuming a scan *)

Lemma ltb_irrefl (s : string) : String.ltb s s = false.
Proof.
  unfold String.ltb. pose proof (String.compare_antisym s s) as H.
  destruct (String.compare s s); try reflexivity; discriminate.
Qed.

Lemma seekFrom_suffix (target : string) (l : list TTLIndex) :
  exists skipped, l = skipped ++ seekFrom target l.
Proof.
  induction l as [|e rest [skipped IH]]; cbn [seekFrom].
  - by exists [].
  - destruct (String.ltb (encode e) target).
    + exists (e :: skipped). cbn. by rewrite <- IH.
    + by exists [].
Qed.

Lemma seekFrom_head (target : string) (l : list TTLIndex) (e : TTLIndex)
    (rest : list TTLIndex) :
  seekFrom target l = e :: rest -> String.ltb (encode e) target = false.
Proof.
  induction l as [|x l IH]; cbn [seekFrom]; [discriminate|].
  destruct (String.ltb (encode x) target) eqn:E; [exact IH|].
  intros [= <- _]. exact E.
Qed.

Lemma orderedIndex_filter (f : TTLIndex -> bool) (l : list TTLIndex) :
  orderedIndex l -> orderedIndex (List.filter f l).
Proof.
  intros [Hs Hn]. split.
  - induction Hs as [|a l Hs IH Ha]; cbn [List.filter]; [constructor|].
    inversion Hn; subst.
    destruct (f a); [|by apply IH].
    constructor; [by apply IH|].
    clear -Ha. induction Ha as [|x l Hx Ha IH]; cbn [List.filter]; [constructor|].
    destruct (f x); [by constructor|done].
  - clear Hs. induction Hn as [|x l Hx Hn IH]; cbn [List.filter]; [constructor|].
    destruct (f x); [by constructor|done].
Qed.

Lemma orderedIndex_suffix (l1 l2 : list TTLIndex) :
  orderedIndex (l1 ++ l2) -> orderedIndex l2.
Proof.
  intros [Hs Hn]. split.
  - apply StronglySorted_app in Hs. tauto.
  - apply Forall_app in Hn. tauto.
Qed.

(** Once positioned on resume cursor [C], the cursor holds no entry
    whose encoded key is [C]. *)
Lemma positionCursor_skips (C : string) (c cursor : TTLIndexCursor) :
  orderedIndex (pending c) ->
  positionCursor C c = Some cursor ->
  Forall (fun e => encode e <> C) (pending cursor).
Proof.
  intros Hord. unfold positionCursor.
  destruct (0 <? String.length C)%nat eqn:Hlen.
  - unfold cursor_key, cursor_next, cursor_seek. cbn [pending cursorFault].
    destruct (seekFrom_suffix C (pending c)) as [skipped Hsplit].
    destruct (seekFrom C (pending c)) as [|e rest] eqn:Hseek; [discriminate|].
    pose proof (seekFrom_head _ _ _ _ Hseek) as Hhead.
    rewrite Hsplit in Hord. apply orderedIndex_suffix in Hord as [Hs _].
    apply StronglySorted_inv in Hs as [_ Hall].
    destruct (bool_decide (C = encode e)) eqn:Heq; intros [= <-]; cbn [snd pending].
    + apply bool_decide_eq_true in Heq.
      eapply Forall_impl; [exact Hall|]. intros x Hx Hc. unfold keyBelow in Hx.
      rewrite Hc, <- Heq, ltb_irrefl in Hx. discriminate.
    + apply bool_decide_eq_false in Heq. constructor; [congruence|].
      eapply Forall_impl; [exact Hall|]. intros x Hx Hc. unfold keyBelow in Hx.
      rewrite Hc in Hx. congruence.
  - intros [= <-]. destruct Hord as [_ Hn].
    eapply Forall_impl; [exact Hn|]. intros x Hx Hc. apply Hx.
    rewrite Hc. apply Nat.ltb_ge in Hlen. destruct C; [reflexivity|cbn in Hlen; lia].
Qed.

(** C3. Let [C] be the shard's resume cursor when a scanner pass starts
    (the value the previous pass left).  Over an ordered TTL index, the
    pass appends to the shard's queue no entry whose encoded form is [C];
    and when the seek lands on key [C], the cursor the scan body starts
    from is the sought cursor advanced once. *)
Theorem scan_skips_resume_entry
    (svr : ServerEntry) (i : nat) (m : IndexManager) (C : string) :
  pointAt (_scanPoints m) i = C ->
  (forall store txn,
     getDb svr i = Value store -> createTransaction store = Value txn ->
     orderedIndex (ttlIndex txn)) ->
  (exists appended,
     queueAt (_expiredKeys (snd (scanExpiredKeysJob svr i m))) i
       = queueAt (_expiredKeys m) i ++ appended
     /\ Forall (fun e => encode e <> C) appended)
  /\ (forall c, C <> EmptyString ->
        cursor_key (cursor_seek C c) = Value C ->
        positionCursor C c = Some (snd (cursor_next (cursor_seek C c)))).
Proof.
  intros HC Hord. split.
  - destruct (scan_appends svr i m) as (appended & Hq & _ & Hsrc & _).
    exists appended. split; [exact Hq|].
    destruct Hsrc as [-> | (store & txn & cursor & rest & Hdb & _ & _ & Htxn & Hpos & Hpend)];
      [constructor|].
    rewrite HC in Hpos.
    assert (Hall : Forall (fun e => encode e <> C) (pending cursor)).
    { eapply positionCursor_skips; [|exact Hpos].
      cbn [createTTLIndexCursor pending]. apply orderedIndex_filter.
      by eapply Hord. }
    rewrite Hpend in Hall. apply Forall_app in Hall. tauto.
  - intros c Hne Hkey. unfold positionCursor.
    destruct C as [|a C']; [done|]. cbn [String.length Nat.ltb Nat.leb].
    rewrite Hkey. by rewrite bool_decide_eq_true_2.
Qed.

Lemma sampleIndex_ordered : orderedIndex sampleIndex.
Proof.
  split.
  - repeat (constructor; [|repeat constructor]). constructor.
  - repeat constructor; discriminate.
Qed.

Lemma scan_skips_resume_entry_witness :
  let svr := sampleServer false false (Value (sampleStore READ_WRITE sampleIndex)) in
  let m := snd (scanExpiredKeysJob svr 0 sampleManager) in
  (exists appended,
     queueAt (_expiredKeys (snd (scanExpiredKeysJob svr 0 m))) 0
       = queueAt (_expiredKeys m) 0 ++ appended
     /\ Forall (fun e => encode e <> "b"%string) appended)
  /\ (forall c, "b"%string <> EmptyString ->
        cursor_key (cursor_seek "b" c) = Value "b"%string ->
        positionCursor "b" c = Some (snd (cursor_next (cursor_seek "b" c)))).
Proof.
  cbv zeta.
  apply (scan_skips_resume_entry
           (sampleServer false false (Value (sampleStore READ_WRITE sampleIndex)))
           0%nat
           (snd (scanExpiredKeysJob
                   (sampleServer false false (Value (sampleStore READ_WRITE sampleIndex)))
                   0 sampleManager))
           "b"%string).
  - vm_compute. reflexivity.
  - intros store txn Hdb Htxn. cbn in Hdb. injection Hdb as <-.
    cbn in Htxn. injection Htxn as <-. exact sampleIndex_ordered.
Defined.

(** ** The dispatch loop *)

Lemma set_indexScanner_id (m : IndexManager) : set_indexScanner (_indexScanner m) m = m.
Proof. by destruct m. Qed.

Lemma set_keyDeleter_id (m : IndexManager) : set_keyDeleter (_keyDeleter m) m = m.
Proof. by destruct m. Qed.

Lemma scheScanExpired_eq (svr : ServerEntry) (m : IndexManager) :
  scheScanExpired svr m =
    (set_indexScanner
       (scheduleAll (map ScanJob (seq 0 (getKVStoreCount svr))) (_indexScanner m)) m,
     map (fun i => Schedule scannerName (ScanJob i)) (seq 0 (getKVStoreCount svr))).
Proof.
  unfold scheScanExpired, scheduleAll.
  generalize (seq 0 (getKVStoreCount svr)) as l.
  assert (H : forall l m0 tr,
            foldl (fun '(m, tr) i =>
                     (set_indexScanner (schedule (ScanJob i) (_indexScanner m)) m,
                      tr ++ [Schedule scannerName (ScanJob i)])) (m0, tr) l
            = (set_indexScanner
                 (foldl (fun p j => schedule j p) (_indexScanner m0) (map ScanJob l)) m0,
               tr ++ map (fun i => Schedule scannerName (ScanJob i)) l)).
  { induction l as [|i l IH]; intros m0 tr; cbn [foldl map].
    - by rewrite set_indexScanner_id, app_nil_r.
    - rewrite IH. cbn. by rewrite <- app_assoc. }
  intros l. by rewrite H.
Qed.

Lemma schedDelExpired_eq (svr : ServerEntry) (m : IndexManager) :
  schedDelExpired svr m =
    ((0 <? length (shardsWithExpires svr m))%nat,
     set_keyDeleter
       (scheduleAll (map DelJob (shardsWithExpires svr m)) (_keyDeleter m)) m,
     [Lock] ++ map Inspect (seq 0 (getKVStoreCount svr)) ++ [Unlock]
     ++ map (fun i => Schedule deleterName (DelJob i)) (shardsWithExpires svr m)).
Proof.
  unfold schedDelExpired, shardsWithExpires, scheduleAll.
  generalize (seq 0 (getKVStoreCount svr)) as l. intros l.
  assert (Hsnap : forall l acc tr,
            foldl (fun '(acc, tr) i =>
                     (if (0 <? length (queueAt (_expiredKeys m) i))%nat
                      then acc ++ [i] else acc,
                      tr ++ [Inspect i])) (acc, tr) l
            = (acc ++ List.filter (fun i => bool_decide (queueAt (_expiredKeys m) i <> [])) l,
               tr ++ map Inspect l)).
  { clear l. induction l as [|i l IH]; intros acc tr; cbn [foldl map List.filter].
    - by rewrite !app_nil_r.
    - rewrite IH. rewrite <- (app_assoc tr). cbn [app].
      destruct (queueAt (_expiredKeys m) i) as [|e q] eqn:Hq;
        cbn [length Nat.ltb Nat.leb].
      + rewrite bool_decide_eq_false_2 by (intros Hne; by apply Hne). reflexivity.
      + rewrite bool_decide_eq_true_2 by done. by rewrite <- app_assoc. }
  rewrite Hsnap. cbn [app].
  generalize (List.filter (fun i => bool_decide (queueAt (_expiredKeys m) i <> [])) l) as S.
  intros S.
  assert (Hsched : forall S m0 tr,
            foldl (fun '(m, tr) store_idx =>
                     (set_keyDeleter (schedule (DelJob store_idx) (_keyDeleter m)) m,
                      tr ++ [Schedule deleterName (DelJob store_idx)])) (m0, tr) S
            = (set_keyDeleter
                 (foldl (fun p j => schedule j p) (_keyDeleter m0) (map DelJob S)) m0,
               tr ++ map (fun i => Schedule deleterName (DelJob i)) S)).
  { clear S. induction S as [|i S IH]; intros m0 tr; cbn [foldl map].
    - by rewrite set_keyDeleter_id, app_nil_r.
    - rewrite IH. cbn. by rewrite <- app_assoc. }
  rewrite Hsched. cbn [app]. by rewrite <- app_assoc.
Qed.

Lemma runIteration_eq (svr : ServerEntry) (m : IndexManager) :
  runIteration svr m =
    (set_keyDeleter
       (scheduleAll (map DelJob (shardsWithExpires svr m)) (_keyDeleter m))
       (set_indexScanner
          (scheduleAll (map ScanJob (seq 0 (getKVStoreCount svr))) (_indexScanner m)) m),
     iterationTrace svr m).
Proof.
  unfold runIteration. rewrite scheScanExpired_eq, schedDelExpired_eq.
  unfold iterationTrace, shardsWithExpires.
  cbn [_expiredKeys _keyDeleter _pauseTime set_indexScanner set_keyDeleter].
  f_equal. by rewrite <- !app_assoc.
Qed.

Lemma lockDiscipline_free (tr rest : list Effect) :
  Forall (fun e => match e with Schedule _ _ | Sleep _ => True | _ => False end) tr ->
  lockDiscipline false (tr ++ rest) = lockDiscipline false rest.
Proof.
  induction 1 as [|e tr He _ IH]; [reflexivity|].
  destruct e; try done; exact IH.
Qed.

Lemma lockDiscipline_inspect (l : list nat) (rest : list Effect) :
  lockDiscipline true (map Inspect l ++ rest) = lockDiscipline true rest.
Proof. induction l as [|i l IH]; [reflexivity|exact IH]. Qed.

Lemma iterationTrace_discipline (svr : ServerEntry) (m : IndexManager) :
  lockDiscipline false (iterationTrace svr m) = true.
Proof.
  unfold iterationTrace.
  rewrite lockDiscipline_free by (apply Forall_map, Forall_true; done).
  cbn [app lockDiscipline negb andb].
  rewrite lockDiscipline_inspect. cbn [app lockDiscipline negb andb].
  rewrite lockDiscipline_free by (apply Forall_map, Forall_true; done).
  reflexivity.
Qed.

(** The loop leaves at once when [_isRunning] reads false, and
    otherwise runs the loop body and goes round again. *)
Lemma run_unfold (rounds : nat) (svr : ServerEntry) (m : IndexManager) :
  run (S rounds) svr m =
    if _isRunning m
    then (let '(m', t) := runIteration svr m in
          let '(m'', t') := run rounds svr m' in (m'', t ++ t'))
    else (m, []).
Proof.
  cbn [run]. unfold runStep. destruct (_isRunning m); [|reflexivity].
  by destruct (runIteration svr m).
Qed.

Lemma scheduleAll_Some (js : list Job) (w : WorkerPool) :
  scheduleAll js (Some w)
    = Some (mkWorkerPool (poolName w) (poolThreads w) (poolQueue w ++ js)).
Proof.
  unfold scheduleAll. revert w. induction js as [|j js IH]; intros w; cbn [foldl schedule].
  - rewrite app_nil_r. by destruct w.
  - rewrite IH. cbn. by rewrite <- app_assoc.
Qed.

(** C8. While [_isRunning] reads true, a pass of the dispatch loop
    schedules a scanner job on the scanner pool for every shard in
    [0, N), in order; takes the lock, inspects every shard's queue and
    releases the lock; schedules a deleter job on the deleter pool for
    exactly the shards whose queue was not empty; and then sleeps
    [_pauseTime] seconds.  Nothing is scheduled while the lock is held,
    and the pass changes nothing of the manager but the two pools'
    queues. *)
Theorem dispatch_iteration (svr : ServerEntry) (m : IndexManager) :
  _isRunning m = true ->
  exists m',
    runStep svr m = Some (m', iterationTrace svr m)
    /\ lockDiscipline false (iterationTrace svr m) = true
    /\ (forall i, In i (shardsWithExpires svr m) <->
                  (i < getKVStoreCount svr)%nat /\ queueAt (_expiredKeys m) i <> [])
    /\ (forall w, _indexScanner m = Some w ->
          _indexScanner m'
          = Some (mkWorkerPool (poolName w) (poolThreads w)
                    (poolQueue w ++ map ScanJob (seq 0 (getKVStoreCount svr)))))
    /\ (forall w, _keyDeleter m = Some w ->
          _keyDeleter m'
          = Some (mkWorkerPool (poolName w) (poolThreads w)
                    (poolQueue w ++ map DelJob (shardsWithExpires svr m))))
    /\ set_indexScanner (_indexScanner m) (set_keyDeleter (_keyDeleter m) m') = m.
Proof.
  intros Hrun. unfold runStep. rewrite Hrun, runIteration_eq.
  eexists. split; [reflexivity|]. split_and!.
  - apply iterationTrace_discipline.
  - intros i. unfold shardsWithExpires.
    rewrite filter_In, in_seq, bool_decide_eq_true. intuition lia.
  - intros w Hw. cbn. by rewrite Hw, scheduleAll_Some.
  - intros w Hw. cbn. by rewrite Hw, scheduleAll_Some.
  - by destruct m.
Qed.

Lemma dispatch_iteration_witness :
  let svr := sampleServer false false (Value (sampleStore READ_WRITE sampleIndex)) in
  let m := snd (scanExpiredKeysJob svr 0
                  (snd (startup (fun _ _ => OK) (newIndexManager svr sampleParams)))) in
  _isRunning m = true
  /\ exists m',
    runStep svr m = Some (m', iterationTrace svr m)
    /\ lockDiscipline false (iterationTrace svr m) = true
    /\ (forall i, In i (shardsWithExpires svr m) <->
                  (i < getKVStoreCount svr)%nat /\ queueAt (_expiredKeys m) i <> [])
    /\ (forall w, _indexScanner m = Some w ->
          _indexScanner m'
          = Some (mkWorkerPool (poolName w) (poolThreads w)
                    (poolQueue w ++ map ScanJob (seq 0 (getKVStoreCount svr)))))
    /\ (forall w, _keyDeleter m = Some w ->
          _keyDeleter m'
          = Some (mkWorkerPool (poolName w) (poolThreads w)
                    (poolQueue w ++ map DelJob (shardsWithExpires svr m))))
    /\ set_indexScanner (_indexScanner m) (set_keyDeleter (_keyDeleter m) m') = m.
Proof.
  cbv zeta.
  assert (Hrun : _isRunning
            (snd (scanExpiredKeysJob
                    (sampleServer false false (Value (sampleStore READ_WRITE sampleIndex))) 0
                    (snd (startup (fun _ _ => OK)
                            (newIndexManager
                               (sampleServer false false
                                  (Value (sampleStore READ_WRITE sampleIndex)))
                               sampleParams))))) = true)
    by (vm_compute; reflexivity).
  split; [exact Hrun|].
  exact (dispatch_iteration _ _ Hrun).
Defined.

(** ** Startup and the running flag *)

Lemma scan_isRunning (svr : ServerEntry) (i : nat) (m : IndexManager) :
  _isRunning (snd (scanExpiredKeysJob svr i m)) = _isRunning m.
Proof.
  unfold scanExpiredKeysJob.
  destruct (flagAt (_scanJobStatus m) i); [reflexivity|].
  cbn [_disableStatus set_scanJobStatus].
  destruct (flagAt (_disableStatus m) i); [reflexivity|].
  pose proof (scanGuarded_frame svr i
                (set_scanJobStatus (<[i := true]> (_scanJobStatus m)) m)) as F.
  cbv zeta in F. destruct F as (_ & _ & _ & F & _).
  destruct (scanGuarded svr i _) as [s m']. cbn [snd] in *.
  by rewrite (proj2 (proj2 (proj2 (proj2 (scanGuard_frame i m'))))).
Qed.

Lemma runJob_isRunning (j : Job) (w : World) :
  _isRunning (wMgr (runJob j w)) = _isRunning (wMgr w).
Proof.
  destruct j as [i|i]; unfold runJob.
  - cbn [wMgr]. apply scan_isRunning.
  - destruct (del_pops i (wMgr w)) as (popped & _ & _ & _ & _ & Hrun).
    destruct (tryDelExpiredKeysJob i (wMgr w)) as [[d m'] calls]. exact Hrun.
Qed.

(** Every operation but [stop] leaves [_isRunning] as it was. *)
Lemma execOp_isRunning (w : World) (op : Op) :
  op <> OpStop -> _isRunning (wMgr (execOp w op)) = _isRunning (wMgr w).
Proof.
  intros Hop. destruct op; try done; cbn [execOp].
  - unfold runStep. destruct (_isRunning (wMgr w)) eqn:Hrun; [|done].
    rewrite runIteration_eq. cbn. exact Hrun.
  - destruct (takeJob _) as [[j p]|]; [|done]. by rewrite runJob_isRunning.
  - destruct (takeJob _) as [[j p]|]; [|done]. by rewrite runJob_isRunning.
Qed.

Lemma exec_isRunning (ops : list Op) (w : World) :
  Forall (fun op => op <> OpStop) ops ->
  _isRunning (wMgr (exec ops w)) = _isRunning (wMgr w).
Proof.
  unfold exec. intros Hops. revert w.
  induction Hops as [|op ops Hop _ IH]; intros w; cbn [foldl]; [reflexivity|].
  rewrite IH. by apply execOp_isRunning.
Qed.

Lemma exec_app (ops1 ops2 : list Op) (w : World) :
  exec (ops1 ++ ops2) w = exec ops2 (exec ops1 w).
Proof. unfold exec. apply foldl_app. Qed.

Lemma newIndexManager_fresh (svr : ServerEntry) (cfg : ServerParams) :
  _isRunning (newIndexManager svr cfg) = false
  /\ _runner (newIndexManager svr cfg) = false
  /\ _expiredKeys (newIndexManager svr cfg) = ∅.
Proof.
  unfold newIndexManager.
  generalize (seq 0 (getKVStoreCount svr)) as l.
  assert (H : forall l m, _isRunning (foldl initStore m l) = _isRunning m
                          /\ _runner (foldl initStore m l) = _runner m
                          /\ _expiredKeys (foldl initStore m l) = _expiredKeys m).
  { induction l as [|i l IH]; intros m; cbn [foldl]; [done|].
    destruct (IH (initStore m i)) as (-> & -> & ->). done. }
  intros l. apply H.
Qed.

(** C9. [startup] returns a status that is not OK exactly when the
    scanner pool fails to start, or the scanner pool starts and the
    deleter pool fails to start; the status returned is then the failing
    pool's, the dispatch thread is not launched and [isRunning] is what
    it was (false on a constructed manager).  When both pools start,
    [startup] returns OK, the dispatch thread is launched, and
    [isRunning] is true and stays true through every operation of the
    engine until [stop], which makes it false. *)
Theorem startup_outcome (poolStartup : string -> Z -> Status) (m : IndexManager) :
  let sScan := poolStartup scannerName (_scanPoolSize m) in
  let sDel := poolStartup deleterName (_delPoolSize m) in
  let r := startup poolStartup m in
  (ok (fst r) = false <-> ok sScan = false \/ (ok sScan = true /\ ok sDel = false))
  /\ (ok sScan = false ->
      fst r = sScan /\ _runner (snd r) = _runner m /\ isRunning (snd r) = isRunning m)
  /\ (ok sScan = true -> ok sDel = false ->
      fst r = sDel /\ _runner (snd r) = _runner m /\ isRunning (snd r) = isRunning m)
  /\ (ok sScan = true -> ok sDel = true ->
      fst r = OK /\ _runner (snd r) = true /\ isRunning (snd r) = true
      /\ forall svr ops,
           Forall (fun op => op <> OpStop) ops ->
           isRunning (wMgr (exec ops (mkWorld svr (snd r) []))) = true
           /\ isRunning (wMgr (exec (ops ++ [OpStop]) (mkWorld svr (snd r) []))) = false)
  /\ (forall svr cfg, isRunning (newIndexManager svr cfg) = false).
Proof.
  cbv zeta. unfold startup, startPool, isRunning.
  cbn [_delPoolSize set_indexScanner].
  destruct (ok (poolStartup scannerName (_scanPoolSize m))) eqn:Hscan; cbn [negb].
  2:{ cbn [fst snd]. rewrite Hscan. split_and!; try done.
      - split; [auto|done].
      - intros. apply newIndexManager_fresh. }
  destruct (ok (poolStartup deleterName (_delPoolSize m))) eqn:Hdel; cbn [negb fst snd].
  2:{ rewrite Hdel. split_and!; try done.
      - split; [auto|done].
      - intros. apply newIndexManager_fresh. }
  split_and!; try done.
  - split; [done|]. intros [?|[_ ?]]; done.
  - intros _ _. split_and!; try done. intros svr ops Hops. split.
    + by rewrite exec_isRunning.
    + rewrite exec_app. reflexivity.
  - intros. apply newIndexManager_fresh.
Qed.

(** ** Replica safety *)

Lemma runJob_replicaInv (j : Job) (w : World) : replicaInv w -> replicaInv (runJob j w).
Proof.
  intros [Hq Hlog]. destruct j as [i|i]; unfold runJob.
  - split; [|exact Hlog]. cbn [wSvr wMgr]. intros k Hk.
    destruct (scan_appends (wSvr w) i (wMgr w)) as (appended & Happ & Hother & Hsrc & _).
    destruct (decide (k = i)) as [->|Hne]; [|rewrite Hother by done; by apply Hq].
    rewrite Happ, (Hq i Hk).
    destruct Hsrc as [-> | (store & _ & _ & _ & Hdb & Hrw & _)]; [reflexivity|].
    unfold modeOf in Hk. rewrite Hdb in Hk. injection Hk as Hk. by destruct Hrw.
  - destruct (del_pops i (wMgr w)) as (popped & Hsplit & Hcalls & _ & Hother & _).
    destruct (tryDelExpiredKeysJob i (wMgr w)) as [[d m'] calls].
    cbn [fst snd] in *. subst calls. split; cbn [wSvr wMgr wLog].
    + intros k Hk. destruct (decide (k = i)) as [->|Hne].
      * specialize (Hq i Hk). rewrite Hq in Hsplit.
        symmetry in Hsplit. by apply app_eq_nil in Hsplit as [_ ?].
      * rewrite Hother by done. by apply Hq.
    + apply Forall_app. split; [exact Hlog|].
      apply Forall_map, Forall_map.
      destruct (decide (modeOf (wSvr w) i = Some REPLICATE_ONLY)) as [Hrep|Hrw].
      * specialize (Hq i Hrep). rewrite Hq in Hsplit.
        symmetry in Hsplit. apply app_eq_nil in Hsplit as [-> _]. constructor.
      * apply Forall_true. intros x. exact Hrw.
Qed.

Lemma changeMode_modeOf (i k : nat) (mode : StoreMode) (svr : ServerEntry) :
  modeOf (changeMode i mode svr) k = Some REPLICATE_ONLY ->
  (k = i /\ mode = REPLICATE_ONLY) \/ (k <> i /\ modeOf svr k = Some REPLICATE_ONLY).
Proof.
  unfold modeOf, changeMode. cbn [getDb].
  destruct (bool_decide (k = i)) eqn:Hk.
  - apply bool_decide_eq_true in Hk as ->.
    destruct (getDb svr i) as [store|s]; [|discriminate].
    unfold setStoreMode. destruct (bool_decide (getMode store = mode)) eqn:Hm.
    + apply bool_decide_eq_true in Hm. intros [= H]. left. split; congruence.
    + cbn. intros [= H]. by left.
  - apply bool_decide_eq_false in Hk. intros H. by right.
Qed.

Lemma execOp_replicaInv (w : World) (op : Op) :
  replicaInv w -> switchAdmitted w op -> replicaInv (execOp w op).
Proof.
  intros Hinv Hadm. pose proof Hinv as [Hq Hlog]. destruct op; cbn [execOp].
  - unfold runStep. destruct (_isRunning (wMgr w)); [|exact Hinv].
    rewrite runIteration_eq. split; [|exact Hlog]. exact Hq.
  - destruct (takeJob _) as [[j p]|]; [|exact Hinv].
    apply runJob_replicaInv. split; [exact Hq|exact Hlog].
  - destruct (takeJob _) as [[j p]|]; [|exact Hinv].
    apply runJob_replicaInv. split; [exact Hq|exact Hlog].
  - split; [|exact Hlog]. cbn [wSvr wMgr stopStore snd]. intros k Hk. cbn.
    rewrite queueAt_insert. case_decide; [reflexivity|]. by apply Hq.
  - split; [|exact Hlog]. cbn [wSvr wMgr]. intros k Hk.
    apply changeMode_modeOf in Hk as [[-> ->]|[_ Hk]]; [exact Hadm|by apply Hq].
  - split; [|exact Hlog]. exact Hq.
Qed.

Lemma exec_replicaInv (ops : list Op) (w : World) :
  replicaInv w -> admitted ops w -> replicaInv (exec ops w).
Proof.
  unfold exec. revert w. induction ops as [|op ops IH]; intros w Hinv Hadm; [exact Hinv|].
  destruct Hadm as [Hop Hrest]. cbn [foldl]. apply IH; [|exact Hrest].
  by apply execOp_replicaInv.
Qed.

Lemma engineStarted_replicaInv (svr : ServerEntry) (cfg : ServerParams)
    (poolStartup : string -> Z -> Status) :
  replicaInv (engineStarted svr cfg poolStartup).
Proof.
  split; [|constructor]. intros i _. cbn [engineStarted wMgr].
  assert (H : _expiredKeys (snd (startup poolStartup (newIndexManager svr cfg)))
              = _expiredKeys (newIndexManager svr cfg)).
  { unfold startup, startPool. repeat case_match; reflexivity. }
  rewrite H, (proj2 (proj2 (newIndexManager_fresh svr cfg))). reflexivity.
Qed.

(** C5, the claim as stated fails.  Shard 0 is READ_WRITE with expired
    entries; a dispatch pass schedules its scanner, which queues two
    entries; the shard is switched to REPLICATE_ONLY; the next dispatch
    pass finds the queue non-empty and schedules the deleter, which
    calls [expireKeyIfNeeded] for both entries while the shard is in
    replicate-only mode. *)
Lemma replica_shard_receives_expire_calls :
  let w0 := engineStarted
              (sampleServer false false (Value (sampleStore READ_WRITE sampleIndex)))
              sampleParams (fun _ _ => OK) in
  let w := exec [OpTick; OpScanWorker; OpSetMode 0 REPLICATE_ONLY; OpTick; OpDelWorker] w0 in
  modeOf (wSvr w) 0 = Some REPLICATE_ONLY
  /\ wLog w = [mkInvocation 0 (callOf (sampleEntry "a")) (Some REPLICATE_ONLY);
               mkInvocation 0 (callOf (sampleEntry "b")) (Some REPLICATE_ONLY)].
Proof. cbv zeta. split; vm_compute; reflexivity. Qed.

(** C5 (as amended).  In every execution of the started engine in which
    a shard is switched to REPLICATE_ONLY only while its expired queue is
    empty, no [expireKeyIfNeeded] call is made for a shard that is in
    replicate-only mode at the time of the call. *)
Theorem replica_safe_when_switched_on_empty_queue
    (svr : ServerEntry) (cfg : ServerParams) (poolStartup : string -> Z -> Status)
    (ops : list Op) :
  admitted ops (engineStarted svr cfg poolStartup) ->
  replicaSafe (wLog (exec ops (engineStarted svr cfg poolStartup))).
Proof.
  intros Hadm.
  apply (exec_replicaInv ops (engineStarted svr cfg poolStartup)); [|exact Hadm].
  apply engineStarted_replicaInv.
Qed.

Lemma replica_safe_when_switched_on_empty_queue_witness :
  let w0 := engineStarted
              (sampleServer false false (Value (sampleStore READ_WRITE sampleIndex)))
              sampleParams (fun _ _ => OK) in
  let ops := [OpTick; OpScanWorker; OpTick; OpDelWorker;
              OpSetMode 0 REPLICATE_ONLY; OpTick; OpScanWorker; OpDelWorker] in
  admitted ops w0 /\ replicaSafe (wLog (exec ops w0)).
Proof.
  cbv zeta.
  assert (Hadm : admitted
            [OpTick; OpScanWorker; OpTick; OpDelWorker;
             OpSetMode 0 REPLICATE_ONLY; OpTick; OpScanWorker; OpDelWorker]
            (engineStarted
               (sampleServer false false (Value (sampleStore READ_WRITE sampleIndex)))
               sampleParams (fun _ _ => OK))).
  { cbn [admitted switchAdmitted]. split_and!; try exact I. vm_compute. reflexivity. }
  split; [exact Hadm|].
  exact (replica_safe_when_switched_on_empty_queue _ _ _ _ Hadm).
Defined.

(** ** Bounds on the work of one job *)

Lemma scan_releases_busy_flag_witness :
  flagAt (_scanJobStatus
            (snd (scanExpiredKeysJob
                    (sampleServer false false (Value (sampleStore READ_WRITE sampleIndex)))
                    0 sampleManager))) 0 = false.
Proof.
  apply (scan_releases_busy_flag
           (sampleServer false false (Value (sampleStore READ_WRITE sampleIndex)))
           0%nat sampleManager); vm_compute; reflexivity.
Defined.




(** X4. With [_delBatch] at least 1, a deleter pass pops a prefix of the
    shard's queue of at most [_delBatch] entries, and calls
    [expireKeyIfNeeded] once for each popped entry, in queue order. *)
Theorem del_pass_bounded (i : nat) (m : IndexManager) :
  0 < _delBatch m < 2 ^ 32 ->
  exists popped,
    queueAt (_expiredKeys m) i
      = popped ++ queueAt (_expiredKeys (tryDelExpiredKeysJob i m).1.2) i
    /\ (tryDelExpiredKeysJob i m).2 = map callOf popped
    /\ Z.of_nat (length popped) <= _delBatch m.
Proof.
  intros Hb. destruct (del_pops i m) as (popped & Hsplit & Hcalls & Hle & _).
  exists popped. auto.
Qed.

Lemma del_pass_bounded_witness :
  let svr := sampleServer false false (Value (sampleStore READ_WRITE sampleIndex)) in
  let m := snd (scanExpiredKeysJob svr 0 (snd (scanExpiredKeysJob svr 0 sampleManager))) in
  exists popped,
    queueAt (_expiredKeys m) 0
      = popped ++ queueAt (_expiredKeys (tryDelExpiredKeysJob 0 m).1.2) 0
    /\ (tryDelExpiredKeysJob 0 m).2 = map callOf popped
    /\ Z.of_nat (length popped) <= _delBatch m.
Proof.
  cbv zeta.
  apply (del_pass_bounded 0%nat
           (snd (scanExpiredKeysJob
                   (sampleServer false false (Value (sampleStore READ_WRITE sampleIndex))) 0
                   (snd (scanExpiredKeysJob
                           (sampleServer false false
                              (Value (sampleStore READ_WRITE sampleIndex)))
                           0 sampleManager))))).
  vm_compute. split; reflexivity.
Defined.



(** ** The order of the encoded keys *)











(** ** What a scanner pass enqueues *)





(** ** What a deleter pass drains *)

Lemma delLoop_frame (i : nat) (queue : list TTLIndex) (deletes : Z) (m : IndexManager) :
  let m' := (delLoop queue i deletes m).1.2 in
  _scanPoints m' = _scanPoints m /\ _scanJobStatus m' = _scanJobStatus m
  /\ _disableStatus m' = _disableStatus m /\ _scanJobCnt m' = _scanJobCnt m
  /\ _totalEnqueue m' = _totalEnqueue m /\ _delBatch m' = _delBatch m
  /\ _indexScanner m' = _indexScanner m /\ _keyDeleter m' = _keyDeleter m
  /\ _scanBatch m' = _scanBatch m.
Proof.
  cbv zeta. revert deletes m. induction queue as [|index rest IH]; intros deletes m.
  - by split_and!.
  - cbn [delLoop]. cbv zeta.
    set (m1 := set_totalDequeue _ _).
    destruct (wrap32 (deletes + 1) =? _delBatch m1); [by split_and!|].
    specialize (IH (wrap32 (deletes + 1)) m1).
    destruct (delLoop rest i (wrap32 (deletes + 1)) m1) as [[d' m'] calls].
    exact IH.
Qed.


(** ** Shards are independent *)

(** A scanner job for shard [i] leaves every table entry of another
    shard as it was. *)
Lemma scan_other_shard (svr : ServerEntry) (i j : nat) (m : IndexManager) :
  j <> i ->
  let m' := snd (scanExpiredKeysJob svr i m) in
  queueAt (_expiredKeys m') j = queueAt (_expiredKeys m) j
  /\ pointAt (_scanPoints m') j = pointAt (_scanPoints m) j
  /\ flagAt (_scanJobStatus m') j = flagAt (_scanJobStatus m) j
  /\ flagAt (_delJobStatus m') j = flagAt (_delJobStatus m) j
  /\ flagAt (_disableStatus m') j = flagAt (_disableStatus m) j
  /\ cntAt (_scanJobCnt m') j = cntAt (_scanJobCnt m) j
  /\ cntAt (_delJobCnt m') j = cntAt (_delJobCnt m) j.
Proof.
  intros Hj. cbv zeta. unfold scanExpiredKeysJob.
  destruct (flagAt (_scanJobStatus m) i); [by split_and!|].
  cbn [_disableStatus set_scanJobStatus].
  destruct (flagAt (_disableStatus m) i).
  { cbn. rewrite flagAt_insert, decide_False by done. by split_and!. }
  unfold scanGuarded.
  destruct (clusterEnabled svr && existMigrateTask svr).
  { cbn. rewrite !flagAt_insert, cntAt_insert, !decide_False by done. by split_and!. }
  set (m1 := set_scanJobCnt _ _).
  assert (Hplain :
    queueAt (_expiredKeys (scanGuard i m1)) j = queueAt (_expiredKeys m) j
    /\ pointAt (_scanPoints (scanGuard i m1)) j = pointAt (_scanPoints m) j
    /\ flagAt (_scanJobStatus (scanGuard i m1)) j = flagAt (_scanJobStatus m) j
    /\ flagAt (_delJobStatus (scanGuard i m1)) j = flagAt (_delJobStatus m) j
    /\ flagAt (_disableStatus (scanGuard i m1)) j = flagAt (_disableStatus m) j
    /\ cntAt (_scanJobCnt (scanGuard i m1)) j = cntAt (_scanJobCnt m) j
    /\ cntAt (_delJobCnt (scanGuard i m1)) j = cntAt (_delJobCnt m) j).
  { subst m1. cbn. rewrite !flagAt_insert, !cntAt_insert, !decide_False by done.
    by split_and!. }
  destruct (getDb svr i) as [store|s]; [|exact Hplain].
  destruct (bool_decide (getMode store = REPLICATE_ONLY) || negb (isOpen store));
    [exact Hplain|].
  destruct (createTransaction store) as [txn|s]; [|exact Hplain].
  destruct (positionCursor _ _) as [cursor|]; [|exact Hplain].
  cbn [snd].
  destruct (scanLoop_appends i (pending cursor) m1) as (app & rest & _ & _ & Ho & _).
  pose proof (scanLoop_frame i (pending cursor) m1) as F. cbv zeta in F.
  destruct F as (_ & _ & _ & _ & F1 & F2 & F3 & F4 & F5 & _).
  destruct (Ho j Hj) as [Hq Hp].
  destruct Hplain as (P1 & P2 & P3 & P4 & P5 & P6 & P7).
  unfold scanGuard in *. cbn in P1, P2, P3, P4, P5, P6, P7 |- *.
  rewrite F1, F2, F3, F4, F5, Hq, Hp.
  by split_and!.
Qed.

(** A deleter job for shard [i] leaves every table entry of another
    shard, and every resume cursor, as it was. *)
Lemma del_other_shard (i j : nat) (m : IndexManager) :
  j <> i ->
  let m' := (tryDelExpiredKeysJob i m).1.2 in
  queueAt (_expiredKeys m') j = queueAt (_expiredKeys m) j
  /\ pointAt (_scanPoints m') j = pointAt (_scanPoints m) j
  /\ flagAt (_scanJobStatus m') j = flagAt (_scanJobStatus m) j
  /\ flagAt (_delJobStatus m') j = flagAt (_delJobStatus m) j
  /\ flagAt (_disableStatus m') j = flagAt (_disableStatus m) j
  /\ cntAt (_scanJobCnt m') j = cntAt (_scanJobCnt m) j
  /\ cntAt (_delJobCnt m') j = cntAt (_delJobCnt m) j.
Proof.
  intros Hj. cbv zeta. unfold tryDelExpiredKeysJob.
  destruct (flagAt (_delJobStatus m) i); [by split_and!|].
  cbn [_disableStatus set_delJobStatus].
  destruct (flagAt (_disableStatus m) i).
  { cbn. rewrite flagAt_insert, decide_False by done. by split_and!. }
  cbn [_expiredKeys set_delJobCnt set_delJobStatus].
  match goal with
  | |- context [delLoop ?q i 0 ?m0] =>
      destruct (delLoop_pops i q 0 m0 eq_refl) as (_ & _ & _ & _ & G1 & G2 & _ & Ho);
      pose proof (delLoop_frame i q 0 m0) as F; cbv zeta in F;
      destruct F as (F1 & F2 & F3 & F4 & _);
      destruct (delLoop q i 0 m0) as [[d' m'] calls]
  end.
  cbn [fst snd] in *. cbn. rewrite F1, F2, F3, F4, G1, G2, (Ho j Hj). cbn.
  rewrite !flagAt_insert, !cntAt_insert, !decide_False by done. by split_and!.
Qed.

(** X9. A scanner job and a deleter job for shard [i] leave every
    per-shard table entry of any other shard [j] as it was: its expired
    queue, resume cursor, busy flags, disabled flag and in-flight
    counters. *)
Theorem jobs_touch_only_their_shard (svr : ServerEntry) (i j : nat) (m : IndexManager) :
  j <> i ->
  (let m' := snd (scanExpiredKeysJob svr i m) in
   queueAt (_expiredKeys m') j = queueAt (_expiredKeys m) j
   /\ pointAt (_scanPoints m') j = pointAt (_scanPoints m) j
   /\ flagAt (_scanJobStatus m') j = flagAt (_scanJobStatus m) j
   /\ flagAt (_delJobStatus m') j = flagAt (_delJobStatus m) j
   /\ flagAt (_disableStatus m') j = flagAt (_disableStatus m) j
   /\ cntAt (_scanJobCnt m') j = cntAt (_scanJobCnt m) j
   /\ cntAt (_delJobCnt m') j = cntAt (_delJobCnt m) j)
  /\ (let m' := (tryDelExpiredKeysJob i m).1.2 in
      queueAt (_expiredKeys m') j = queueAt (_expiredKeys m) j
      /\ pointAt (_scanPoints m') j = pointAt (_scanPoints m) j
      /\ flagAt (_scanJobStatus m') j = flagAt (_scanJobStatus m) j
      /\ flagAt (_delJobStatus m') j = flagAt (_delJobStatus m) j
      /\ flagAt (_disableStatus m') j = flagAt (_disableStatus m) j
      /\ cntAt (_scanJobCnt m') j = cntAt (_scanJobCnt m) j
      /\ cntAt (_delJobCnt m') j = cntAt (_delJobCnt m) j).
Proof.
  intros Hj. split; [by apply scan_other_shard|by apply del_other_shard].
Qed.

Lemma jobs_touch_only_their_shard_witness :
  let svr := sampleServer false false (Value (sampleStore READ_WRITE sampleIndex)) in
  let m := sampleManager in
  (let m' := snd (scanExpiredKeysJob svr 0 m) in
   queueAt (_expiredKeys m') 1 = queueAt (_expiredKeys m) 1
   /\ pointAt (_scanPoints m') 1 = pointAt (_scanPoints m) 1
   /\ flagAt (_scanJobStatus m') 1 = flagAt (_scanJobStatus m) 1
   /\ flagAt (_delJobStatus m') 1 = flagAt (_delJobStatus m) 1
   /\ flagAt (_disableStatus m') 1 = flagAt (_disableStatus m) 1
   /\ cntAt (_scanJobCnt m') 1 = cntAt (_scanJobCnt m) 1
   /\ cntAt (_delJobCnt m') 1 = cntAt (_delJobCnt m) 1)
  /\ (let m' := (tryDelExpiredKeysJob 0 m).1.2 in
      queueAt (_expiredKeys m') 1 = queueAt (_expiredKeys m) 1
      /\ pointAt (_scanPoints m') 1 = pointAt (_scanPoints m) 1
      /\ flagAt (_scanJobStatus m') 1 = flagAt (_scanJobStatus m) 1
      /\ flagAt (_delJobStatus m') 1 = flagAt (_delJobStatus m) 1
      /\ flagAt (_disableStatus m') 1 = flagAt (_disableStatus m) 1
      /\ cntAt (_scanJobCnt m') 1 = cntAt (_scanJobCnt m) 1
      /\ cntAt (_delJobCnt m') 1 = cntAt (_delJobCnt m) 1).
Proof.
  cbv zeta.
  apply (jobs_touch_only_their_shard
           (sampleServer false false (Value (sampleStore READ_WRITE sampleIndex)))
           0%nat 1%nat sampleManager).
  discriminate.
Defined.

(** ** A stopped shard *)








(** ** The constructor *)

Lemma foldl_initStore (l : list nat) (m : IndexManager) (i : nat) :
  let M := foldl initStore m l in
  (In i l ->
     _scanPoints M !! i = Some EmptyString /\ _scanJobStatus M !! i = Some false
     /\ _delJobStatus M !! i = Some false /\ _disableStatus M !! i = Some false
     /\ _scanJobCnt M !! i = Some 0 /\ _delJobCnt M !! i = Some 0)
  /\ (~ In i l ->
     _scanPoints M !! i = _scanPoints m !! i /\ _scanJobStatus M !! i = _scanJobStatus m !! i
     /\ _delJobStatus M !! i = _delJobStatus m !! i
     /\ _disableStatus M !! i = _disableStatus m !! i
     /\ _scanJobCnt M !! i = _scanJobCnt m !! i /\ _delJobCnt M !! i = _delJobCnt m !! i)
  /\ _totalEnqueue M = _totalEnqueue m /\ _totalDequeue M = _totalDequeue m
  /\ _scanBatch M = _scanBatch m /\ _delBatch M = _delBatch m
  /\ _scanPoolSize M = _scanPoolSize m /\ _delPoolSize M = _delPoolSize m
  /\ _pauseTime M = _pauseTime m
  /\ _indexScanner M = _indexScanner m /\ _keyDeleter M = _keyDeleter m.
Proof.
  cbv zeta. revert m. induction l as [|x l IH]; intros m; cbn [foldl].
  - split_and!; done.
  - destruct (IH (initStore m x)) as (Hin & Hout & T1 & T2 & T3 & T4 & T5 & T6 & T7 & T8 & T9).
    split_and!; try done.
    + intros Hi. destruct (in_dec Nat.eq_dec i l) as [Hl|Hl]; [by apply Hin|].
      destruct Hi as [->|Hi]; [|done].
      destruct (Hout Hl) as (-> & -> & -> & -> & -> & ->).
      cbn. rewrite !lookup_insert_eq. by split_and!.
    + intros Hi. destruct (Hout (fun H => Hi (or_intror H))) as (-> & -> & -> & -> & -> & ->).
      cbn. rewrite !lookup_insert_ne by (intros ->; apply Hi; by left). by split_and!.
Qed.

(** X11. The constructor leaves the manager not running, with both
    totals at zero, no expired queue, and the batch sizes, pool sizes and
    pause time of the configuration; each of the six tables it fills has
    an entry for exactly the shard ids below the shard count: an empty
    resume cursor, clear busy and disabled flags, and zero in-flight
    counters. *)
Theorem constructed_manager (svr : ServerEntry) (cfg : ServerParams) :
  let M := newIndexManager svr cfg in
  (isRunning M = false /\ _totalEnqueue M = 0 /\ _totalDequeue M = 0
   /\ _expiredKeys M = ∅
   /\ _scanBatch M = scanCntIndexMgr cfg /\ _delBatch M = delCntIndexMgr cfg
   /\ _scanPoolSize M = scanJobCntIndexMgr cfg /\ _delPoolSize M = delJobCntIndexMgr cfg
   /\ _pauseTime M = pauseTimeIndexMgr cfg)
  /\ forall i,
       ((i < getKVStoreCount svr)%nat ->
          _scanPoints M !! i = Some EmptyString /\ _scanJobStatus M !! i = Some false
          /\ _delJobStatus M !! i = Some false /\ _disableStatus M !! i = Some false
          /\ _scanJobCnt M !! i = Some 0 /\ _delJobCnt M !! i = Some 0)
       /\ ((getKVStoreCount svr <= i)%nat ->
          _scanPoints M !! i = None /\ _scanJobStatus M !! i = None
          /\ _delJobStatus M !! i = None /\ _disableStatus M !! i = None
          /\ _scanJobCnt M !! i = None /\ _delJobCnt M !! i = None).
Proof.
  cbv zeta. unfold newIndexManager, isRunning.
  split.
  - destruct (newIndexManager_fresh svr cfg) as (Hrun & _ & Hkeys).
    unfold newIndexManager in Hrun, Hkeys. rewrite Hrun, Hkeys.
    match goal with
    | |- context [foldl initStore ?m0 ?l] =>
        pose proof (foldl_initStore l m0 0%nat) as F; cbv zeta in F;
        destruct F as (_ & _ & -> & -> & -> & -> & -> & -> & -> & _)
    end.
    by split_and!.
  - intros i.
    match goal with
    | |- context [foldl initStore ?m0 ?l] =>
        pose proof (foldl_initStore l m0 i) as F; cbv zeta in F;
        destruct F as (Hin & Hout & _)
    end.
    split.
    + intros Hi. apply Hin. apply in_seq. lia.
    + intros Hi. destruct Hout as (-> & -> & -> & -> & -> & ->).
      * rewrite in_seq. lia.
      * cbn. by rewrite !lookup_empty.
Qed.

(** ** The jobs the engine runs *)

Lemma scanLoop_points_dom (i k : nat) (records : list TTLIndex) (m : IndexManager) :
  is_Some (_scanPoints m !! k) -> is_Some (_scanPoints (scanLoop records i m) !! k).
Proof.
  revert m. induction records as [|record rest IH]; intros m Hk; [exact Hk|].
  cbn [scanLoop]. cbv zeta.
  assert (H1 : is_Some (_scanPoints (enqueue record i m) !! k)).
  { cbn. rewrite lookup_insert. case_decide; [by eexists|exact Hk]. }
  case_match; [exact H1|by apply IH].
Qed.

Lemma scan_keeps_engine (svr : ServerEntry) (i : nat) (m : IndexManager) :
  _indexScanner (snd (scanExpiredKeysJob svr i m)) = _indexScanner m
  /\ _keyDeleter (snd (scanExpiredKeysJob svr i m)) = _keyDeleter m
  /\ forall k, is_Some (_scanPoints m !! k) ->
               is_Some (_scanPoints (snd (scanExpiredKeysJob svr i m)) !! k).
Proof.
  unfold scanExpiredKeysJob.
  destruct (flagAt (_scanJobStatus m) i); [done|].
  cbn [_disableStatus set_scanJobStatus].
  destruct (flagAt (_disableStatus m) i); [done|].
  unfold scanGuarded.
  destruct (clusterEnabled svr && existMigrateTask svr); [done|].
  destruct (getDb svr i) as [store|s]; [|done].
  destruct (bool_decide (getMode store = REPLICATE_ONLY) || negb (isOpen store)); [done|].
  destruct (createTransaction store) as [txn|s]; [|done].
  destruct (positionCursor _ _) as [cursor|]; [|done].
  cbn [snd]. set (m1 := set_scanJobCnt _ _).
  pose proof (scanLoop_frame i (pending cursor) m1) as F. cbv zeta in F.
  destruct F as (_ & _ & F1 & F2 & _).
  unfold scanGuard.
  cbn [_indexScanner _keyDeleter _scanPoints set_scanJobStatus set_scanJobCnt].
  rewrite F1, F2. split_and!; try done.
  intros k Hk. by apply scanLoop_points_dom.
Qed.

Lemma del_keeps_engine (i : nat) (m : IndexManager) :
  _indexScanner (tryDelExpiredKeysJob i m).1.2 = _indexScanner m
  /\ _keyDeleter (tryDelExpiredKeysJob i m).1.2 = _keyDeleter m
  /\ _scanPoints (tryDelExpiredKeysJob i m).1.2 = _scanPoints m.
Proof.
  unfold tryDelExpiredKeysJob.
  destruct (flagAt (_delJobStatus m) i); [done|].
  cbn [_disableStatus set_delJobStatus].
  destruct (flagAt (_disableStatus m) i); [done|].
  cbn [_expiredKeys set_delJobCnt set_delJobStatus].
  match goal with
  | |- context [delLoop ?q i 0 ?m0] =>
      pose proof (delLoop_frame i q 0 m0) as F; cbv zeta in F;
      destruct F as (F1 & _ & _ & _ & _ & _ & F2 & F3 & _);
      destruct (delLoop q i 0 m0) as [[d' m'] calls]
  end.
  cbn [fst snd] in *. cbn. by rewrite F1, F2, F3.
Qed.

Lemma takeJob_head (p p' : option WorkerPool) (j : Job) :
  takeJob p = Some (j, p') -> poolJobs p = j :: poolJobs p'.
Proof.
  unfold takeJob. destruct p as [w|]; [|done].
  destruct (0 <? poolThreads w); [|done].
  destruct (poolQueue w) as [|j' rest] eqn:E; [done|].
  intros [= <- <-]. cbn. exact E.
Qed.

Lemma poolJobs_scheduleAll (js : list Job) (p : option WorkerPool) (N : nat) :
  Forall (fun j => (jobShard j < N)%nat) (poolJobs p) ->
  Forall (fun j => (jobShard j < N)%nat) js ->
  Forall (fun j => (jobShard j < N)%nat) (poolJobs (scheduleAll js p)).
Proof.
  intros Hp Hjs. destruct p as [w|].
  - rewrite scheduleAll_Some. cbn in *. by apply Forall_app.
  - unfold scheduleAll. clear. induction js; [constructor|exact IHjs].
Qed.

Lemma runJob_sound (N : nat) (j : Job) (w : World) :
  engineSound N (wMgr w) -> engineSound N (wMgr (runJob j w)).
Proof.
  intros (Hdom & Hs & Hd). destruct j as [i|i]; unfold runJob.
  - cbn [wMgr]. destruct (scan_keeps_engine (wSvr w) i (wMgr w)) as (F1 & F2 & F3).
    unfold engineSound. rewrite F1, F2. split_and!; try done.
    intros k Hk. by apply F3, Hdom.
  - destruct (del_keeps_engine i (wMgr w)) as (F1 & F2 & F3).
    destruct (tryDelExpiredKeysJob i (wMgr w)) as [[d m'] calls].
    cbn [fst snd wMgr] in *. unfold engineSound. by rewrite F1, F2, F3.
Qed.

Lemma execOp_sound (w : World) (op : Op) :
  engineSound (getKVStoreCount (wSvr w)) (wMgr w) ->
  getKVStoreCount (wSvr (execOp w op)) = getKVStoreCount (wSvr w)
  /\ engineSound (getKVStoreCount (wSvr w)) (wMgr (execOp w op)).
Proof.
  intros Hs. pose proof Hs as (Hdom & Hscan & Hdel). destruct op; cbn [execOp].
  - unfold runStep. destruct (_isRunning (wMgr w)); [|done].
    rewrite runIteration_eq. cbn [wSvr wMgr]. split; [done|].
    unfold engineSound. cbn. split_and!; [exact Hdom| |].
    + apply poolJobs_scheduleAll; [done|].
      apply Forall_map, Forall_forall. intros i Hi%list_elem_of_In%in_seq. cbn. lia.
    + apply poolJobs_scheduleAll; [done|].
      apply Forall_map, Forall_forall. intros i Hi%list_elem_of_In.
      unfold shardsWithExpires in Hi. apply filter_In in Hi as [Hi%in_seq _]. cbn. lia.
  - destruct (takeJob _) as [[j p]|] eqn:E; [|done].
    apply takeJob_head in E.
    assert (Hsvr : wSvr (runJob j (mkWorld (wSvr w) (set_indexScanner p (wMgr w)) (wLog w)))
                   = wSvr w).
    { destruct j; unfold runJob; [done|]. by destruct (tryDelExpiredKeysJob _ _) as [[? ?] ?]. }
    rewrite Hsvr. split; [done|].
    apply runJob_sound. unfold engineSound. cbn. split_and!; try done.
    rewrite E in Hscan. by inversion Hscan.
  - destruct (takeJob _) as [[j p]|] eqn:E; [|done].
    apply takeJob_head in E.
    assert (Hsvr : wSvr (runJob j (mkWorld (wSvr w) (set_keyDeleter p (wMgr w)) (wLog w)))
                   = wSvr w).
    { destruct j; unfold runJob; [done|]. by destruct (tryDelExpiredKeysJob _ _) as [[? ?] ?]. }
    rewrite Hsvr. split; [done|].
    apply runJob_sound. unfold engineSound. cbn. split_and!; try done.
    rewrite E in Hdel. by inversion Hdel.
  - cbn. split; [done|]. unfold engineSound. cbn. split_and!; try done.
    intros k Hk. rewrite lookup_insert. case_decide; [by eexists|by apply Hdom].
  - cbn. split; [done|]. exact Hs.
  - cbn. split; [done|]. unfold engineSound. cbn. split_and!; try done.
    + by destruct (_indexScanner (wMgr w)).
    + by destruct (_keyDeleter (wMgr w)).
Qed.

(** X12. In every execution of the started engine, a job that a pool
    worker is about to take is for a shard id below the shard count,
    and [_scanPoints] has an entry for that shard: the scanner's
    [INVARIANT(_scanPoints.find(storeId) != _scanPoints.end())] holds for
    every job the dispatch loop has scheduled. *)
Theorem scheduled_jobs_find_their_cursor
    (svr : ServerEntry) (cfg : ServerParams) (poolStartup : string -> Z -> Status)
    (ops : list Op) :
  let w := exec ops (engineStarted svr cfg poolStartup) in
  forall j p,
    takeJob (_indexScanner (wMgr w)) = Some (j, p)
    \/ takeJob (_keyDeleter (wMgr w)) = Some (j, p) ->
    (jobShard j < getKVStoreCount svr)%nat
    /\ is_Some (_scanPoints (wMgr w) !! jobShard j).
Proof.
  cbv zeta.
  assert (Hgen : forall ops w0,
            engineSound (getKVStoreCount (wSvr w0)) (wMgr w0) ->
            getKVStoreCount (wSvr (exec ops w0)) = getKVStoreCount (wSvr w0)
            /\ engineSound (getKVStoreCount (wSvr w0)) (wMgr (exec ops w0))).
  { clear. unfold exec. induction ops as [|op ops IH]; intros w0 Hs; cbn [foldl]; [done|].
    destruct (execOp_sound w0 op Hs) as [Hn Hs'].
    rewrite <- Hn in Hs'. destruct (IH _ Hs') as [Hn' Hs'']. rewrite Hn in *. done. }
  assert (Hinit : engineSound (getKVStoreCount svr)
                    (wMgr (engineStarted svr cfg poolStartup))).
  { cbn [engineStarted wMgr]. unfold startup, startPool.
    assert (Hdom : forall i, (i < getKVStoreCount svr)%nat ->
                     is_Some (_scanPoints (newIndexManager svr cfg) !! i)).
    { intros i Hi. unfold newIndexManager.
      match goal with
      | |- context [foldl initStore ?m0 ?l] =>
          pose proof (foldl_initStore l m0 i) as F; cbv zeta in F;
          destruct F as (Hin & _)
      end.
      destruct Hin as (-> & _); [apply in_seq; lia|]. by eexists. }
    assert (Hpools : _indexScanner (newIndexManager svr cfg) = None
                     /\ _keyDeleter (newIndexManager svr cfg) = None).
    { unfold newIndexManager.
      match goal with
      | |- context [foldl initStore ?m0 ?l] =>
          pose proof (foldl_initStore l m0 0%nat) as F; cbv zeta in F;
          destruct F as (_ & _ & _ & _ & _ & _ & _ & _ & _ & -> & ->)
      end. done. }
    destruct Hpools as [Hp1 Hp2].
    repeat case_match; unfold engineSound; cbn; rewrite ?Hp1, ?Hp2;
      split_and!; try done; constructor. }
  destruct (Hgen ops (engineStarted svr cfg poolStartup) Hinit) as [_ (Hdom & Hscan & Hdel)].
  cbn [engineStarted wSvr] in *.
  intros j p [E|E]; apply takeJob_head in E.
  - rewrite E in Hscan. inversion Hscan; subst. split; [done|by apply Hdom].
  - rewrite E in Hdel. inversion Hdel; subst. split; [done|by apply Hdom].
Qed.

Lemma scheduled_jobs_find_their_cursor_witness :
  let svr := sampleServer false false (Value (sampleStore READ_WRITE sampleIndex)) in
  let w := exec [OpTick] (engineStarted svr sampleParams (fun _ _ => OK)) in
  (jobShard (ScanJob 0) < getKVStoreCount svr)%nat
  /\ is_Some (_scanPoints (wMgr w) !! jobShard (ScanJob 0)).
Proof.
  cbv zeta.
  apply (scheduled_jobs_find_their_cursor
           (sampleServer false false (Value (sampleStore READ_WRITE sampleIndex)))
           sampleParams (fun _ _ => OK) [OpTick]
           (ScanJob 0) (Some (mkWorkerPool scannerName 1 []))).
  left. vm_compute. reflexivity.
Defined.

(** ** The dispatch loop left to itself *)

(** X13. Left to itself (no worker takes a job, no other thread
    interferes), the loop does nothing when [_isRunning] reads false,
    and otherwise never leaves: each round schedules the same jobs
    again, so after [rounds] rounds the trace is [rounds] copies of one
    pass and each pool's queue has grown by [rounds] copies of the jobs
    of one pass; the expired queues are untouched. *)
Theorem run_rounds (svr : ServerEntry) (m : IndexManager) (rounds : nat) :
  (_isRunning m = false -> run rounds svr m = (m, []))
  /\ (_isRunning m = true ->
      snd (run rounds svr m) = concat (replicate rounds (iterationTrace svr m))
      /\ _indexScanner (fst (run rounds svr m))
         = Nat.iter rounds (scheduleAll (map ScanJob (seq 0 (getKVStoreCount svr))))
             (_indexScanner m)
      /\ _keyDeleter (fst (run rounds svr m))
         = Nat.iter rounds (scheduleAll (map DelJob (shardsWithExpires svr m)))
             (_keyDeleter m)
      /\ _isRunning (fst (run rounds svr m)) = true
      /\ _expiredKeys (fst (run rounds svr m)) = _expiredKeys m).
Proof.
  split.
  - intros Hrun. destruct rounds; [reflexivity|]. rewrite run_unfold. by rewrite Hrun.
  - revert m. induction rounds as [|n IH]; intros m Hrun; [by split_and!|].
    rewrite run_unfold, Hrun, runIteration_eq.
    set (m1 := set_keyDeleter _ _).
    destruct (IH m1 Hrun) as (Htr & Hscan & Hdel & Hr & Hk).
    destruct (run n svr m1) as [m2 t2]. cbn [fst snd] in *.
    rewrite Htr, Hscan, Hdel, Hr, Hk. subst m1. split_and!; try done.
    + cbn [_indexScanner set_keyDeleter set_indexScanner].
      by rewrite <- Nat.iter_succ_r.
    + cbn [_keyDeleter set_keyDeleter set_indexScanner].
      replace (shardsWithExpires svr (set_keyDeleter _ _))
        with (shardsWithExpires svr m) by reflexivity.
      by rewrite <- Nat.iter_succ_r.
Qed.

(** ** Rounds of scanning and draining *)












Section Rounds.
Variables (svr : ServerEntry) (i : nat) (store : KVStore) (txn : Transaction).
Hypothesis Hmig : clusterEnabled svr && existMigrateTask svr = false.
Hypothesis Hdb : getDb svr i = Value store.
Hypothesis Hrw : getMode store <> REPLICATE_ONLY.
Hypothesis Hopen : isOpen store = true.
Hypothesis Htxn : createTransaction store = Value txn.
Hypothesis Hord : orderedIndex (ttlIndex txn).


End Rounds.


(** ** The engine after [stop] *)





(** ** The running totals *)

Lemma queuedAll_insert (t : gmap nat (list TTLIndex)) (i : nat) (q : list TTLIndex) :
  queuedAll (<[i := q]> t)
  = queuedAll t - Z.of_nat (length (queueAt t i)) + Z.of_nat (length q).
Proof.
  assert (Hfresh : forall (t0 : gmap nat (list TTLIndex)) q0, t0 !! i = None ->
            queuedAll (<[i := q0]> t0) = Z.of_nat (length q0) + queuedAll t0).
  { intros t0 q0 Hn. unfold queuedAll. rewrite map_fold_insert_L; [done| |done].
    intros j1 j2 z1 z2 y _ _ _. cbn beta. lia. }
  unfold queueAt. destruct (t !! i) as [q0|] eqn:E; cbn [from_option id].
  - assert (E1 : queuedAll (<[i := q]> t)
                 = Z.of_nat (length q) + queuedAll (delete i t)).
    { rewrite <- insert_delete_eq. apply Hfresh, lookup_delete_eq. }
    assert (E2 : queuedAll t = Z.of_nat (length q0) + queuedAll (delete i t)).
    { rewrite <- (insert_delete_id t i q0 E) at 1. apply Hfresh, lookup_delete_eq. }
    lia.
  - rewrite Hfresh by done. cbn. lia.
Qed.

Lemma wrap64_shift (a b c : Z) : wrap64 a = wrap64 b -> wrap64 (a + c) = wrap64 (b + c).
Proof.
  unfold wrap64. intros H.
  by rewrite <- (Zplus_mod_idemp_l a), H, Zplus_mod_idemp_l.
Qed.

Lemma wrap64_minus_l (a b : Z) : wrap64 (wrap64 a - b) = wrap64 (a - b).
Proof. unfold wrap64. apply Zminus_mod_idemp_l. Qed.

Lemma wrap64_minus_r (a b : Z) : wrap64 (a - wrap64 b) = wrap64 (a - b).
Proof. unfold wrap64. apply Zminus_mod_idemp_r. Qed.

Lemma enqueue_balanced (record : TTLIndex) (i : nat) (m : IndexManager) :
  balanced m -> balanced (enqueue record i m).
Proof.
  unfold balanced, enqueue. cbn. intros H.
  rewrite queuedAll_insert, wrap64_minus_l, length_app. cbn [length].
  apply (wrap64_shift _ _ 1) in H.
  replace (_totalEnqueue m + 1 - _totalDequeue m)
    with (_totalEnqueue m - _totalDequeue m + 1) by lia.
  rewrite H. f_equal. lia.
Qed.

Lemma scanLoop_balanced (records : list TTLIndex) (i : nat) (m : IndexManager) :
  balanced m -> balanced (scanLoop records i m).
Proof.
  revert m. induction records as [|record rest IH]; intros m H; cbn [scanLoop]; [done|].
  cbv zeta. pose proof (enqueue_balanced record i m H) as H1.
  destruct (_ =? _); [done|]. by apply IH.
Qed.

Lemma scan_balanced (svr : ServerEntry) (i : nat) (m : IndexManager) :
  balanced m -> balanced (snd (scanExpiredKeysJob svr i m)).
Proof.
  intros H. unfold scanExpiredKeysJob.
  destruct (flagAt (_scanJobStatus m) i); [done|].
  cbn [_disableStatus set_scanJobStatus].
  destruct (flagAt (_disableStatus m) i); [done|].
  unfold scanGuarded.
  destruct (clusterEnabled svr && existMigrateTask svr); [done|].
  destruct (getDb svr i) as [store|s]; [|done].
  destruct (bool_decide (getMode store = REPLICATE_ONLY) || negb (isOpen store)); [done|].
  destruct (createTransaction store) as [txn|s]; [|done].
  cbv zeta. destruct (positionCursor _ _) as [cursor|]; [|done].
  cbn [snd]. 
  match goal with
  | |- balanced (scanGuard i (scanLoop ?l i ?m0)) =>
      assert (H0 : balanced m0) by done;
      pose proof (scanLoop_balanced l i m0 H0) as H1
  end.
  exact H1.
Qed.

Lemma delLoop_balanced (queue : list TTLIndex) (i : nat) (deletes : Z) (m : IndexManager) :
  queueAt (_expiredKeys m) i = queue ->
  balanced m -> balanced (delLoop queue i deletes m).1.2.
Proof.
  revert deletes m. induction queue as [|index rest IH]; intros deletes m Hq H;
    cbn [delLoop]; [done|].
  cbv zeta. set (m1 := set_totalDequeue _ _).
  assert (Hq1 : queueAt (_expiredKeys m1) i = rest).
  { subst m1. cbn. rewrite queueAt_insert. by rewrite decide_True. }
  assert (H1 : balanced m1).
  { subst m1. unfold balanced in *. cbn.
    rewrite queuedAll_insert, Hq, wrap64_minus_r. cbn [length].
    apply (wrap64_shift _ _ (-1)) in H.
    replace (_totalEnqueue m - (_totalDequeue m + 1))
      with (_totalEnqueue m - _totalDequeue m + -1) by lia.
    rewrite H. f_equal. lia. }
  destruct (_ =? _); [done|].
  specialize (IH (wrap32 (deletes + 1)) m1 Hq1 H1).
  by destruct (delLoop rest i (wrap32 (deletes + 1)) m1) as [[d' m'] calls].
Qed.

Lemma del_balanced (i : nat) (m : IndexManager) :
  balanced m -> balanced (tryDelExpiredKeysJob i m).1.2.
Proof.
  intros H. unfold tryDelExpiredKeysJob.
  destruct (flagAt (_delJobStatus m) i); [done|].
  cbn [_disableStatus set_delJobStatus].
  destruct (flagAt (_disableStatus m) i); [done|].
  cbn [_expiredKeys set_delJobCnt set_delJobStatus].
  match goal with
  | |- context [delLoop ?q i 0 ?m0] =>
      assert (H0 : balanced m0) by done;
      pose proof (delLoop_balanced q i 0 m0 eq_refl H0) as H1;
      destruct (delLoop q i 0 m0) as [[d' m'] calls]
  end.
  exact H1.
Qed.

Lemma execOp_balanced (w : World) (op : Op) :
  (forall i, op <> OpStopStore i) ->
  balanced (wMgr w) -> balanced (wMgr (execOp w op)).
Proof.
  intros Hop H. destruct op; cbn [execOp].
  - unfold runStep. destruct (_isRunning (wMgr w)); [|done].
    by rewrite runIteration_eq.
  - destruct (takeJob _) as [[j p]|]; [|done]. destruct j as [i|i]; unfold runJob.
    + cbn [wMgr wSvr]. by apply scan_balanced.
    + cbn [wMgr wSvr wLog].
      pose proof (del_balanced i (set_indexScanner p (wMgr w)) H) as H1.
      by destruct (tryDelExpiredKeysJob i _) as [[d m'] calls].
  - destruct (takeJob _) as [[j p]|]; [|done]. destruct j as [i|i]; unfold runJob.
    + cbn [wMgr wSvr]. by apply scan_balanced.
    + cbn [wMgr wSvr wLog].
      pose proof (del_balanced i (set_keyDeleter p (wMgr w)) H) as H1.
      by destruct (tryDelExpiredKeysJob i _) as [[d m'] calls].
  - by destruct (Hop storeId).
  - done.
  - done.
Qed.

(** X16. In every execution of the started engine in which no store is
    stopped (dispatch passes, workers running the scanner and deleter
    jobs of any shard in any interleaving, mode changes, [stop]), the
    running totals account for the queues: modulo 2^64,
    [_totalEnqueue - _totalDequeue] is the number of entries waiting in
    the expired queues of all shards. *)
Theorem totals_account_for_queues
    (svr : ServerEntry) (cfg : ServerParams) (poolStartup : string -> Z -> Status)
    (ops : list Op) :
  Forall (fun op => forall i, op <> OpStopStore i) ops ->
  let m := wMgr (exec ops (engineStarted svr cfg poolStartup)) in
  wrap64 (_totalEnqueue m - _totalDequeue m) = wrap64 (queuedAll (_expiredKeys m)).
Proof.
  intros Hops. cbv zeta. fold (balanced (wMgr (exec ops (engineStarted svr cfg poolStartup)))).
  assert (Hgen : forall w0, balanced (wMgr w0) -> balanced (wMgr (exec ops w0))).
  { unfold exec. induction Hops as [|op ops Hop _ IH]; intros w0 H0; cbn [foldl]; [done|].
    apply IH. by apply execOp_balanced. }
  apply Hgen. unfold engineStarted. cbn [wMgr].
  pose proof (foldl_initStore (seq 0 (getKVStoreCount svr))
                (mkIndexManager false false None None ∅ ∅ ∅ ∅ ∅ ∅ ∅ 0 0
                   (scanCntIndexMgr cfg) (scanJobCntIndexMgr cfg)
                   (delCntIndexMgr cfg) (delJobCntIndexMgr cfg) (pauseTimeIndexMgr cfg)) 0%nat)
    as F. cbv zeta in F. fold (newIndexManager svr cfg) in F.
  destruct F as (_ & _ & Fe & Fd & _).
  destruct (newIndexManager_fresh svr cfg) as (_ & _ & Fq).
  assert (H0 : balanced (newIndexManager svr cfg)).
  { unfold balanced. rewrite Fe, Fd, Fq. done. }
  revert H0. generalize (newIndexManager svr cfg) as m0. intros m0 H0.
  unfold startup.
  destruct (startPool poolStartup scannerName (_scanPoolSize m0)) as [s1 p1].
  destruct (negb (ok s1)); [done|].
  cbn [_delPoolSize set_indexScanner].
  destruct (startPool poolStartup deleterName (_delPoolSize m0)) as [s2 p2].
  destruct (negb (ok s2)); done.
Qed.

Lemma totals_account_for_queues_witness :
  let svr := sampleServer false false (Value (sampleStore READ_WRITE sampleIndex)) in
  let m := wMgr (exec [OpTick; OpScanWorker; OpDelWorker; OpTick; OpScanWorker]
                   (engineStarted svr sampleParams (fun _ _ => OK))) in
  wrap64 (_totalEnqueue m - _totalDequeue m) = wrap64 (queuedAll (_expiredKeys m)).
Proof.
  cbv zeta.
  apply (totals_account_for_queues
           (sampleServer false false (Value (sampleStore READ_WRITE sampleIndex)))
           sampleParams (fun _ _ => OK)
           [OpTick; OpScanWorker; OpDelWorker; OpTick; OpScanWorker]).
  repeat constructor; discriminate.
Defined.

(** ** The server entry *)

Lemma openStores_returns (env : Server.Env) (ids : list nat)
    (stores : list Server.StoreHandle) (tr : list Server.Effect) :
  Server.openStores env ids = Server.Returns (stores, tr) ->
  stores = map (fun i => Server.mkStoreHandle i (catalogMode env i)) ids
  /\ tr = map (fun i => Server.CatalogSetMeta i READ_WRITE) (List.filter (unrecorded env) ids)
  /\ Forall (fun i => catalogFault env i = false) ids.
Proof.
  revert stores tr. induction ids as [|i ids IH]; intros stores tr H; cbn [Server.openStores] in H.
  - injection H as <- <-. by split_and!.
  - assert (Hm : catalogMode env i
                 = match Server.getStoreMainMeta env i with
                   | Value mode => mode | Failure _ => READ_WRITE end) by done.
    assert (Hu : unrecorded env i
                 = match Server.getStoreMainMeta env i with
                   | Value _ => false | Failure _ => true end) by done.
    assert (Hf : catalogFault env i
                 = match Server.getStoreMainMeta env i with
                   | Value _ => false
                   | Failure s => if bool_decide (code s = ERR_NOTFOUND)
                                  then negb (ok (Server.setStoreMainMeta env i READ_WRITE))
                                  else true end) by done.
    cbn [map List.filter]. rewrite Hm, Hu.
    destruct (Server.getStoreMainMeta env i) as [mode|s].
    + destruct (Server.openStores env ids) as [[stores0 later]|] eqn:E0; [|discriminate].
      injection H as <- <-. destruct (IH _ _ eq_refl) as (-> & -> & HF).
      split_and!; [done..|]. by constructor.
    + destruct (bool_decide (code s = ERR_NOTFOUND)) eqn:Ec; [|discriminate].
      destruct (ok (Server.setStoreMainMeta env i READ_WRITE)) eqn:Es; [|discriminate].
      destruct (Server.openStores env ids) as [[stores0 later]|] eqn:E0; [|discriminate].
      injection H as <- <-. destruct (IH _ _ eq_refl) as (-> & -> & HF).
      split_and!; [done..|]. by constructor.
Qed.


Lemma catalogWrites_only (env : Server.Env) (ids : list nat) (e : Server.Effect) :
  In e (map (fun i => Server.CatalogSetMeta i READ_WRITE) (List.filter (unrecorded env) ids)) ->
  isCatalogWrite e = true.
Proof. intros (i & <- & _)%in_map_iff. done. Qed.

(** The shape every returning run of [startup] has: the stores of the
    store-opening loop, and one of the seven exits. *)
Lemma server_startup_cases {Session : Type} (env : Server.Env) (cfg : Server.Params)
    (st st' : Server.t Session) (s : Status) (tr : list Server.Effect) :
  Server.startup env cfg st = Server.Returns (s, st', tr) ->
  let count := Server.kvStoreCount cfg in
  let cpu := Server.hardware_concurrency env in
  let threads := Z.of_nat (Nat.max 4 (cpu / 2)) in
  let exec := startPool (Server.poolStartup env) Server.executorName threads in
  let index := startup (Server.poolStartup env)
                 (newIndexManager (Server.jobsView env count) (Server.indexParams cfg)) in
  let base running stopped network executor repl idx ftmc :=
    Server.mk (Server._ftmcEnabled st) running stopped (Server._isShutdowned st) network
      executor true repl idx true true
      (map (fun i => Server.mkStoreHandle i (catalogMode env i)) (seq 0 count))
      (Server._sessions st) ftmc (Some (Server.requirepass cfg))
      (Some (Server.masterauth cfg)) (Server.versionIncrease cfg) (Server.generalLog cfg) in
  let keep := base (Server._isRunning st) (Server._isStopped st) in
  (forall i, (i < count)%nat -> catalogFault env i = false)
  /\ Server.catalogKVStoreCount env = count
  /\ ((cpu = 0%nat
       /\ s = mkStatus ERR_INTERNAL "cpu num cannot be detected"
       /\ st' = keep (Server._network st) (Some (mkWorkerPool Server.executorName 0 []))
                  (Server._replMgr st) (Server._indexMgr st) (Server._ftmcThd st)
       /\ tr = catalogWrites env count)
      \/ (cpu <> 0%nat /\ ok (fst exec) = false /\ s = fst exec
          /\ st' = keep (Server._network st) (Some (snd exec))
                     (Server._replMgr st) (Server._indexMgr st) (Server._ftmcThd st)
          /\ tr = catalogWrites env count)
      \/ (cpu <> 0%nat /\ ok (fst exec) = true
          /\ ok (Server.networkPrepare env) = false /\ s = Server.networkPrepare env
          /\ st' = keep true (Some (snd exec))
                     (Server._replMgr st) (Server._indexMgr st) (Server._ftmcThd st)
          /\ tr = catalogWrites env count ++ [Server.NetworkPrepare])
      \/ (cpu <> 0%nat /\ ok (fst exec) = true
          /\ ok (Server.networkPrepare env) = true
          /\ ok (Server.replStartup env) = false /\ s = Server.replStartup env
          /\ st' = keep true (Some (snd exec)) true (Server._indexMgr st) (Server._ftmcThd st)
          /\ tr = catalogWrites env count ++ [Server.NetworkPrepare; Server.ReplStartup])
      \/ (cpu <> 0%nat /\ ok (fst exec) = true
          /\ ok (Server.networkPrepare env) = true
          /\ ok (Server.replStartup env) = true
          /\ ok (fst index) = false /\ s = fst index
          /\ st' = keep true (Some (snd exec)) true (Some (snd index)) (Server._ftmcThd st)
          /\ tr = catalogWrites env count ++ [Server.NetworkPrepare; Server.ReplStartup])
      \/ (cpu <> 0%nat /\ ok (fst exec) = true
          /\ ok (Server.networkPrepare env) = true
          /\ ok (Server.replStartup env) = true
          /\ ok (fst index) = true
          /\ ok (Server.networkRun env) = false /\ s = Server.networkRun env
          /\ st' = keep true (Some (snd exec)) true (Some (snd index)) (Server._ftmcThd st)
          /\ tr = catalogWrites env count
                    ++ [Server.NetworkPrepare; Server.ReplStartup; Server.NetworkRun])
      \/ (cpu <> 0%nat /\ ok (fst exec) = true
          /\ ok (Server.networkPrepare env) = true
          /\ ok (Server.replStartup env) = true
          /\ ok (fst index) = true
          /\ ok (Server.networkRun env) = true /\ s = OK
          /\ st' = base true false true (Some (snd exec)) true (Some (snd index)) true
          /\ tr = catalogWrites env count
                    ++ [Server.NetworkPrepare; Server.ReplStartup; Server.NetworkRun;
                        Server.FtmcStart])).
Proof.
  cbv zeta. unfold Server.startup. intros H.
  destruct (Server.openStores env (seq 0 (Server.kvStoreCount cfg))) as [[stores tr0]|] eqn:E;
    [|discriminate].
  apply openStores_returns in E as (-> & -> & HF).
  fold (catalogWrites env (Server.kvStoreCount cfg)) in H.
  split.
  { intros i Hi. rewrite Forall_forall in HF. apply HF, list_elem_of_In, in_seq. lia. }
  rewrite length_map, length_seq in H.
  destruct (decide (Server.kvStoreCount cfg = Server.catalogKVStoreCount env)) as [Hc|Hc];
    [|by rewrite (bool_decide_eq_false_2 _ Hc) in H].
  rewrite <- Hc in H. rewrite !bool_decide_eq_true_2 in H by done. cbn [negb] in H.
  split; [done|].
  case_bool_decide as Hcpu.
  { left. by injection H as <- <- <-. }
  right.
  destruct (startPool _ _ _) as [s1 pool] eqn:E1. cbn [fst snd].
  destruct (ok s1) eqn:O1; cbn [negb] in H; [|left; by injection H as <- <- <-].
  right.
  destruct (ok (Server.networkPrepare env)) eqn:O2; cbn [negb] in H;
    [|left; by injection H as <- <- <-].
  right.
  destruct (ok (Server.replStartup env)) eqn:O3; cbn [negb] in H;
    [|left; injection H as <- <- <-; by rewrite <- app_assoc].
  right.
  destruct (startup _ _) as [s4 index] eqn:E4. cbn [fst snd].
  destruct (ok s4) eqn:O4; cbn [negb] in H;
    [|left; injection H as <- <- <-; by rewrite <- app_assoc].
  right.
  destruct (ok (Server.networkRun env)) eqn:O5; cbn [negb] in H.
  - right. injection H as <- <- <-. by rewrite <- !app_assoc.
  - left. injection H as <- <- <-. by rewrite <- !app_assoc.
Qed.


Lemma index_startup_running (poolStartup : string -> Z -> Status) (m : IndexManager) :
  ok (fst (startup poolStartup m)) = true ->
  isRunning (snd (startup poolStartup m)) = true.
Proof.
  unfold startup.
  destruct (startPool poolStartup scannerName (_scanPoolSize m)) as [s1 p1].
  destruct (ok s1) eqn:O1; cbn [negb fst snd]; [|congruence].
  destruct (startPool poolStartup deleterName _) as [s2 p2].
  destruct (ok s2) eqn:O2; cbn [negb fst snd]; [|congruence].
  done.
Qed.


(** X18. When [ServerEntry::startup] returns OK: the server is running
    and not stopped; every component is installed; the request pool runs
    [max(4, cpuNum/2)] threads, so at least four; the index manager is
    the one constructed for [kvStoreCount] stores and started, and it is
    running; the calls made after the catalog writes are the network
    prepare, the replication startup, the network run and the start of
    the monitor thread, in this order, so that the listener runs only
    after the index manager has started; the sessions are untouched. *)
Theorem server_startup_success {Session : Type} (env : Server.Env) (cfg : Server.Params)
    (st st' : Server.t Session) (s : Status) (tr : list Server.Effect) :
  Server.startup env cfg st = Server.Returns (s, st', tr) ->
  ok s = true ->
  let count := Server.kvStoreCount cfg in
  let view := Server.jobsView env count in
  Server._isRunning st' = true /\ Server._isStopped st' = false
  /\ Server.installed st' = true
  /\ Server._segmentMgr st' = true /\ Server._pessimisticMgr st' = true
  /\ (exists pool, Server._executor st' = Some pool
        /\ poolName pool = Server.executorName
        /\ poolThreads pool = Z.of_nat (Nat.max 4 (Server.hardware_concurrency env / 2))
        /\ 4 <= poolThreads pool)
  /\ (exists index, Server._indexMgr st' = Some index
        /\ mkWorld view index []
           = engineStarted view (Server.indexParams cfg) (Server.poolStartup env)
        /\ isRunning index = true)
  /\ tr = catalogWrites env count
            ++ [Server.NetworkPrepare; Server.ReplStartup; Server.NetworkRun;
                Server.FtmcStart]
  /\ Server._sessions st' = Server._sessions st
  /\ Server._requirepass st' = Some (Server.requirepass cfg)
  /\ Server._masterauth st' = Some (Server.masterauth cfg).
Proof.
  intros H Hok. apply server_startup_cases in H as (_ & _ & H). cbv zeta in *.
  destruct H as [H|[H|[H|[H|[H|[H|H]]]]]];
    repeat match type of H with _ /\ _ => destruct H as [? H] end; subst s;
    try congruence; try discriminate.
  subst st' tr. cbn [Server._isRunning Server._isStopped Server._segmentMgr
    Server._pessimisticMgr Server._executor Server._indexMgr Server._sessions
    Server._requirepass Server._masterauth].
  split_and!; try reflexivity.
  - eexists. split; [reflexivity|]. unfold startPool in *. cbn [fst snd] in *.
    cbn [poolName poolThreads]. rewrite H1. split_and!; [done..|lia].
  - eexists. split; [reflexivity|]. split; [done|].
    by apply index_startup_running.
Qed.

(** X19. When [ServerEntry::startup] returns a status that is not OK,
    the running and stopped flags, the sessions and the monitor thread
    are as before the call and the monitor thread was not started.  With
    no detectable CPU the status is ERR_INTERNAL, the request pool exists
    but was not started and no call reached the network.  Nothing is
    undone on the way out: when the failing step is the network run, the
    status is the listener's and the index manager is left installed and
    running while the server is not. *)
Theorem server_startup_failure {Session : Type} (env : Server.Env) (cfg : Server.Params)
    (st st' : Server.t Session) (s : Status) (tr : list Server.Effect) :
  Server.startup env cfg st = Server.Returns (s, st', tr) ->
  ok s = false ->
  Server._isRunning st' = Server._isRunning st
  /\ Server._isStopped st' = Server._isStopped st
  /\ Server._sessions st' = Server._sessions st
  /\ Server._ftmcThd st' = Server._ftmcThd st
  /\ ~ In Server.FtmcStart tr
  /\ (Server.hardware_concurrency env = 0%nat ->
        s = mkStatus ERR_INTERNAL "cpu num cannot be detected"
        /\ Server._executor st' = Some (mkWorkerPool Server.executorName 0 [])
        /\ ~ In Server.NetworkPrepare tr)
  /\ (In Server.NetworkRun tr ->
        s = Server.networkRun env
        /\ exists index, Server._indexMgr st' = Some index /\ isRunning index = true).
Proof.
  intros H Hok. apply server_startup_cases in H as (_ & _ & H). cbv zeta in *.
  assert (Hno : forall e, isCatalogWrite e = false ->
            ~ In e (catalogWrites env (Server.kvStoreCount cfg))).
  { intros e He Hin. apply catalogWrites_only in Hin. congruence. }
  destruct H as [H|[H|[H|[H|[H|[H|H]]]]]];
    repeat match type of H with _ /\ _ => destruct H as [? H] end; subst s st' tr;
    try discriminate;
    cbn [Server._isRunning Server._isStopped Server._sessions Server._ftmcThd
         Server._executor Server._indexMgr];
    (split_and!; try reflexivity;
     [ rewrite ?in_app_iff; intros Hin; repeat destruct Hin as [Hin|Hin];
       try discriminate; try done; by eapply Hno in Hin
     | intros Hz; try lia; split_and!; try reflexivity; by apply Hno
     | rewrite ?in_app_iff; intros Hin; repeat destruct Hin as [Hin|Hin];
       try discriminate; try done; try (by eapply Hno in Hin) ]).
  split; [reflexivity|]. eexists. split; [reflexivity|]. by apply index_startup_running.
Qed.



Section Registry.
Context {Session : Type}.
Variable sessId : Session -> Z.
Variable sessStart : Session -> Session.
Variable sessCancel : Session -> Status * Session.

Lemma set_sessions_same (st : Server.t Session) :
  Server.set_sessions (Server._sessions st) st = st.
Proof. by destruct st. Qed.

(** X21. A session added to a running server under an id that is not
    registered is found under its id, started, with the other sessions
    as they were; ending it then gives back the server as it was before
    the session came. *)
Theorem session_add_end_round_trip (sess : Session) (st : Server.t Session) :
  Server._isRunning st = true ->
  Server._sessions st !! sessId (sessStart sess) = None ->
  exists st1,
    Server.addSession sessId sessStart sess st = Server.Returns st1
    /\ Server._sessions st1 !! sessId (sessStart sess) = Some (sessStart sess)
    /\ (forall k, k <> sessId (sessStart sess) ->
          Server._sessions st1 !! k = Server._sessions st !! k)
    /\ Server.endSession (sessId (sessStart sess)) st1 = Server.Returns st.
Proof.
  intros Hrun Hfresh. unfold Server.addSession. rewrite Hrun. cbn [negb]. cbv zeta.
  rewrite bool_decide_eq_false_2 by (rewrite Hfresh; by intros [? ?]).
  eexists. split; [reflexivity|]. cbn [Server._sessions Server.set_sessions].
  split_and!.
  - by rewrite lookup_insert_eq.
  - intros k Hk. by rewrite lookup_insert_ne.
  - unfold Server.endSession. cbn [Server._isRunning Server.set_sessions Server._sessions].
    rewrite Hrun. cbn [negb]. rewrite lookup_insert_eq. f_equal.
    rewrite delete_insert_eq, delete_id by done. by destruct st.
Qed.

(** X22. [ServerEntry::cancelSession] never adds or removes a session
    and changes nothing of the server but the session it cancels.  On a
    server that is not running it answers ERR_BUSY, for an id that is
    not registered ERR_NOTFOUND, each time leaving the server as it is;
    otherwise its status is the one the session's [cancel] gives. *)
Theorem cancel_session_outcome (connId : Z) (st : Server.t Session) :
  let r := Server.cancelSession sessCancel connId st in
  dom (Server._sessions (snd r)) = dom (Server._sessions st)
  /\ (forall k, k <> connId -> Server._sessions (snd r) !! k = Server._sessions st !! k)
  /\ Server.set_sessions (Server._sessions (snd r)) st = snd r
  /\ (Server._isRunning st = false ->
        r = (mkStatus ERR_BUSY "server is shutting down", st))
  /\ (Server._isRunning st = true -> Server._sessions st !! connId = None ->
        r = (mkStatus ERR_NOTFOUND "session not found", st))
  /\ (forall sess, Server._isRunning st = true ->
        Server._sessions st !! connId = Some sess ->
        fst r = fst (sessCancel sess)
        /\ Server._sessions (snd r) !! connId = Some (snd (sessCancel sess))).
Proof.
  cbv zeta. unfold Server.cancelSession.
  destruct (Server._isRunning st) eqn:Hrun; cbn [negb].
  - destruct (Server._sessions st !! connId) as [sess|] eqn:E.
    + destruct (sessCancel sess) as [s sess'] eqn:Ec.
      cbn [fst snd Server._sessions Server.set_sessions].
      split_and!; try done.
      * apply dom_insert_lookup_L. by eexists.
      * intros k Hk. by rewrite lookup_insert_ne.
      * intros sess0 _ [= <-]. rewrite Ec. cbn. by rewrite lookup_insert_eq.
    + cbn [fst snd]. split_and!; try done. apply set_sessions_same.
  - cbn [fst snd]. split_and!; try done. apply set_sessions_same.
Qed.

Lemma call_sound (c : Server.Call Session) (st st' : Server.t Session) :
  serverSound st ->
  Server.call sessId sessStart sessCancel c st = Server.Returns st' ->
  serverSound st'.
Proof.
  intros (Hinst & Hstop & Hsess) H. destruct c as [env cfg|env|sess|connId|connId|env i f| |b];
    cbn [Server.call] in H.
  - destruct (Server.startup env cfg st) as [[[s st1] tr]|] eqn:E; [|discriminate].
    injection H as ->. apply server_startup_cases in E as (_ & _ & E). cbv zeta in E.
    destruct E as [E|[E|[E|[E|[E|[E|E]]]]]];
      repeat match type of E with _ /\ _ => destruct E as [? E] end; subst st';
      unfold serverSound, Server.installed in *;
      cbn [Server._isRunning Server._isStopped Server._sessions Server._network
           Server._executor Server._replMgr Server._indexMgr Server._catalog
           Server._ftmcThd Server._segmentMgr Server._pessimisticMgr];
      (split_and!; [|done|done]);
      try (intros Hr; destruct (Hinst Hr) as (Hi & _ & _);
           repeat match type of Hi with _ && _ = true =>
             apply andb_true_iff in Hi as [Hi ?] end;
           rewrite ?Hi; repeat match goal with Hx : _ = true |- _ => rewrite Hx end;
           rewrite ?bool_decide_eq_true_2 by eauto; done).
    all: intros _; by rewrite ?bool_decide_eq_true_2 by eauto.
  - unfold Server.stop in H. destruct (Server._isRunning st) eqn:Hrun; cbn [negb] in H.
    + destruct (Server.installed st); cbn [negb] in H; [|discriminate].
      injection H as <-. unfold serverSound. cbn. done.
    + injection H as <-. unfold serverSound. by rewrite Hrun.
  - unfold Server.addSession in H. destruct (Server._isRunning st) eqn:Hrun; cbn [negb] in H.
    + cbv zeta in H. case_bool_decide; [discriminate|]. injection H as <-.
      unfold serverSound, Server.installed in *. cbn. rewrite Hrun. split_and!; [|done|done].
      intros _. by apply Hinst.
    + injection H as <-. unfold serverSound. by rewrite Hrun.
  - injection H as <-. unfold Server.cancelSession.
    destruct (Server._isRunning st) eqn:Hrun; cbn [negb snd].
    + destruct (Server._sessions st !! connId) as [sess|]; cbn [snd];
        [|unfold serverSound; by rewrite Hrun].
      destruct (sessCancel sess) as [s sess']. cbn [snd].
      unfold serverSound, Server.installed in *. cbn. rewrite Hrun. split_and!; [|done|done].
      intros _. by apply Hinst.
    + unfold serverSound. by rewrite Hrun.
  - unfold Server.endSession in H. destruct (Server._isRunning st) eqn:Hrun; cbn [negb] in H.
    + destruct (Server._sessions st !! connId); [|discriminate]. injection H as <-.
      unfold serverSound, Server.installed in *. cbn. rewrite Hrun. split_and!; [|done|done].
      intros _. by apply Hinst.
    + injection H as <-. unfold serverSound. by rewrite Hrun.
  - destruct (Server.destroyStore env i f st) as [[[s st1] tr]|] eqn:E; [|discriminate].
    injection H as ->. unfold Server.destroyStore in E.
    assert (Hsame : serverSound st) by done.
    repeat case_match; try discriminate; injection E as <- <- <-; try done.
    unfold serverSound, Server.installed in *. cbn.
    split_and!; [|done|done]. intros Hr. destruct (Hinst Hr) as (Hi & ? & ?).
    split_and!; [|done|done].
    repeat match type of Hi with _ && _ = true => apply andb_true_iff in Hi as [Hi ?] end.
    rewrite Hi. repeat match goal with Hx : _ = true |- _ => rewrite Hx end. done.
  - injection H as <-. unfold serverSound, Server.installed in *. cbn. done.
  - injection H as <-. unfold serverSound, Server.installed in *. cbn. done.
Qed.

Lemma calls_sound (cs : list (Server.Call Session)) (st st' : Server.t Session) :
  serverSound st ->
  Server.calls sessId sessStart sessCancel cs st = Server.Returns st' ->
  serverSound st'.
Proof.
  revert st. induction cs as [|c cs IH]; intros st Hs H; cbn [Server.calls] in H.
  - by injection H as <-.
  - destruct (Server.call sessId sessStart sessCancel c st) as [st1|] eqn:E; [|discriminate].
    eapply IH; [|exact H]. by eapply call_sound.
Qed.

(** X23. After any sequence of calls on a constructed server ([startup],
    [stop], [addSession], [cancelSession], [endSession], [destroyStore],
    the shutdown command, [toggleFtmc], with any answers from the
    collaborators) that returns: a running server has every component
    installed, [_isStopped] is the negation of [_isRunning], and a
    server that is not running has no session.  So [stop] never calls
    through an empty member: it returns, whatever the collaborators
    answer. *)
Theorem server_reachable_sound (indeterminate : bool) (cs : list (Server.Call Session))
    (st : Server.t Session) :
  Server.calls sessId sessStart sessCancel cs (Server.new indeterminate)
    = Server.Returns st ->
  serverSound st
  /\ forall env, exists st' tr, Server.stop env st = Server.Returns (st', tr).
Proof.
  intros H. assert (Hs : serverSound st).
  { eapply calls_sound; [|exact H]. unfold serverSound. cbn. done. }
  split; [exact Hs|]. intros env. unfold Server.stop.
  destruct (Server._isRunning st) eqn:Hrun; cbn [negb]; [|by eexists _, _].
  destruct Hs as (Hinst & _). destruct (Hinst Hrun) as (-> & _). cbn [negb].
  by eexists _, _.
Qed.

Hypothesis cancel_keeps_id : forall sess, sessId (snd (sessCancel sess)) = sessId sess.

Lemma call_ids (c : Server.Call Session) (st st' : Server.t Session) :
  idsConsistent sessId st ->
  Server.call sessId sessStart sessCancel c st = Server.Returns st' ->
  idsConsistent sessId st'.
Proof.
  intros Hids H. destruct c as [env cfg|env|sess|connId|connId|env i f| |b];
    cbn [Server.call] in H.
  - destruct (Server.startup env cfg st) as [[[s st1] tr]|] eqn:E; [|discriminate].
    injection H as ->. apply server_startup_cases in E as (_ & _ & E). cbv zeta in E.
    destruct E as [E|[E|[E|[E|[E|[E|E]]]]]];
      repeat match type of E with _ /\ _ => destruct E as [? E] end; subst st'; exact Hids.
  - unfold Server.stop in H.
    destruct (negb (Server._isRunning st)); cbv beta iota in H; [by injection H as <-|].
    destruct (negb (Server.installed st)); cbv beta iota in H; [discriminate|].
    injection H as <-. intros k s. cbn. by rewrite lookup_empty.
  - unfold Server.addSession in H. cbv zeta in H.
    destruct (negb (Server._isRunning st)); [by injection H as <-|].
    case_bool_decide; [discriminate|]. injection H as <-.
    intros k s. cbn. intros [[<- <-]|[_ Hk]]%lookup_insert_Some; [done|by apply Hids].
  - injection H as <-. unfold Server.cancelSession.
    destruct (negb (Server._isRunning st)); cbn [snd]; [exact Hids|].
    destruct (Server._sessions st !! connId) as [sess|] eqn:E; cbn [snd]; [|exact Hids].
    pose proof (cancel_keeps_id sess) as Hid.
    destruct (sessCancel sess) as [s0 sess']. cbn [snd] in *.
    intros k s. cbn. intros [[<- <-]|[_ Hk]]%lookup_insert_Some; [|by apply Hids].
    rewrite Hid. by apply Hids.
  - unfold Server.endSession in H.
    destruct (negb (Server._isRunning st)); [by injection H as <-|].
    destruct (Server._sessions st !! connId) as [sess|]; [|discriminate]. injection H as <-.
    intros k s0. cbn. intros [_ Hk]%lookup_delete_Some. by apply Hids.
  - destruct (Server.destroyStore env i f st) as [[[s st1] tr]|] eqn:E; [|discriminate].
    injection H as ->. unfold Server.destroyStore in E.
    repeat case_match; try discriminate; injection E as <- <- <-; exact Hids.
  - injection H as <-. exact Hids.
  - injection H as <-. exact Hids.
Qed.

(** X24. Provided a session's [cancel] does not change its id: after any
    returning sequence of calls on a constructed server, every session
    is registered under its own id, so the sessions [getAllSessions]
    lists have pairwise distinct ids. *)
Theorem registered_sessions_have_distinct_ids (indeterminate : bool)
    (cs : list (Server.Call Session)) (st : Server.t Session) :
  Server.calls sessId sessStart sessCancel cs (Server.new indeterminate)
    = Server.Returns st ->
  idsConsistent sessId st
  /\ NoDup (map sessId (Server.getAllSessions st)).
Proof.
  intros H. assert (Hids : idsConsistent sessId st).
  { assert (Hgen : forall cs st0, idsConsistent sessId st0 ->
              Server.calls sessId sessStart sessCancel cs st0 = Server.Returns st ->
              idsConsistent sessId st).
    { clear cs H. induction cs as [|c cs IH]; intros st0 H0 H; cbn [Server.calls] in H.
      - by injection H as <-.
      - destruct (Server.call sessId sessStart sessCancel c st0) as [st1|] eqn:E;
          [|discriminate].
        eapply IH; [|exact H]. by eapply call_ids. }
    eapply Hgen; [|exact H]. intros k s. cbn. by rewrite lookup_empty. }
  split; [exact Hids|]. unfold Server.getAllSessions.
  assert (Heq : map sessId (map snd (map_to_list (Server._sessions st)))
                = map fst (map_to_list (Server._sessions st))).
  { rewrite map_map. apply map_ext_in. intros [k s] Hin%list_elem_of_In%elem_of_map_to_list.
    cbn. by apply Hids. }
  rewrite Heq. apply NoDup_fst_map_to_list.
Qed.
End Registry.





(** ** Closed instances *)

Lemma server_startup_success_witness :
  Server.startup sampleEnv sampleConfig (Server.new (Session := Z) false)
    = Server.Returns (OK, sampleRunning, snd (sampleStartup sampleEnv))
  /\ Server._isRunning sampleRunning = true
  /\ Server._isStopped sampleRunning = false
  /\ Server.installed sampleRunning = true.
Proof.
  split; [vm_compute; reflexivity|].
  pose proof (server_startup_success sampleEnv sampleConfig (Server.new false)
                sampleRunning OK (snd (sampleStartup sampleEnv))) as H.
  cbv zeta in H. destruct H as (H1 & H2 & H3 & _); [vm_compute; reflexivity..|].
  by split_and!.
Defined.

Lemma server_startup_failure_witness :
  let env := sampleEnvWith 8 noSuchStore in
  Server.startup env sampleConfig (Server.new (Session := Z) false)
    = Server.Returns (sampleStartup env)
  /\ ok (fst (fst (sampleStartup env))) = false
  /\ Server._isRunning (snd (fst (sampleStartup env))) = false
  /\ (exists index, Server._indexMgr (snd (fst (sampleStartup env))) = Some index
        /\ isRunning index = true).
Proof.
  cbv zeta. split; [vm_compute; reflexivity|]. split; [vm_compute; reflexivity|].
  pose proof (server_startup_failure (sampleEnvWith 8 noSuchStore) sampleConfig
                (Server.new false) (snd (fst (sampleStartup (sampleEnvWith 8 noSuchStore))))
                (fst (fst (sampleStartup (sampleEnvWith 8 noSuchStore))))
                (snd (sampleStartup (sampleEnvWith 8 noSuchStore)))) as H.
  destruct H as (H1 & _ & _ & _ & _ & _ & H7); [vm_compute; reflexivity..|].
  split; [exact H1|]. apply H7. vm_compute. auto.
Defined.


Lemma session_add_end_round_trip_witness :
  exists st1,
    Server.addSession sampleSessId sampleStart 7 sampleRunning = Server.Returns st1
    /\ Server._sessions st1 !! 7 = Some 7
    /\ Server.endSession 7 st1 = Server.Returns sampleRunning.
Proof.
  destruct (session_add_end_round_trip sampleSessId sampleStart 7 sampleRunning)
    as (st1 & H1 & H2 & _ & H4); [vm_compute; reflexivity..|].
  exists st1. by split_and!.
Defined.

Lemma server_reachable_sound_witness :
  serverSound sampleAfterCalls
  /\ exists st' tr, Server.stop sampleEnv sampleAfterCalls = Server.Returns (st', tr).
Proof.
  destruct (server_reachable_sound sampleSessId sampleStart sampleCancel false sampleCalls
              sampleAfterCalls) as [H1 H2]; [vm_compute; reflexivity|].
  split; [exact H1|apply H2].
Defined.

Lemma registered_sessions_have_distinct_ids_witness :
  idsConsistent sampleSessId sampleAfterCalls
  /\ NoDup (map sampleSessId (Server.getAllSessions sampleAfterCalls)).
Proof.
  apply (registered_sessions_have_distinct_ids sampleSessId sampleStart sampleCancel
           (fun sess => eq_refl) false sampleCalls sampleAfterCalls).
  vm_compute. reflexivity.
Defined.


